(** * QR Track: short-code issuance, redirect-and-track, analytics

    A shallow embedding of the server side of the repository:
    - [src/lib/utils.ts]      ([parseUserAgent], [truncateIP], [getBaseURL],
                               [generateShortCode]),
    - [src/lib/db.ts]         (the SQL statements, over [db/schema.sql]),
    - [src/lib/qr-generator.ts] ([generateQRCodeDataURL]),
    - [src/types/api.ts]      ([generateQRSchema]),
    - the three route handlers ([POST /api/qr/generate], [GET /r/:shortCode],
      [GET /api/analytics/:qrId]),
    and of the two components that call them:
    - [src/components/QRGenerator.tsx]        ([handleGenerate]),
    - [src/components/AnalyticsDashboard.tsx] ([fetchAnalytics], the render).

    Strings are sequences of 8-bit code units.  JavaScript numbers are
    modelled by exact integers plus [NaN]; the rounding of integers above
    2^53 is not modelled. *)

From Stdlib Require Import ZArith Lia Ascii.
From Stdlib Require String DecimalString DecimalNat DecimalPos.
From stdpp Require Import base option list strings sorting.

Open Scope Z_scope.

(** ** JavaScript primitives used by the sources *)

Module Js.

(** Truthiness of a [string | null] value: [null] and [""] are falsy. *)
Definition truthy (v : option string) : bool :=
  match v with
  | None => false
  | Some EmptyString => false
  | Some (String _ _) => true
  end.

(** [a || b] on [string | null] operands. *)
Definition or_else (a b : option string) : option string :=
  if truthy a then a else b.

(** [s.includes(needle)]. *)
Fixpoint includes (needle s : string) : bool :=
  String.prefix needle s ||
  match s with
  | EmptyString => false
  | String _ s' => includes needle s'
  end.

(** [s.split(sep)] for a one-character separator. *)
Fixpoint split (sep : ascii) (s : string) : list string :=
  match s with
  | EmptyString => [EmptyString]
  | String c s' =>
      if Ascii.eqb c sep then EmptyString :: split sep s'
      else match split sep s' with
           | [] => [String c EmptyString]
           | p :: ps => String c p :: ps
           end
  end.

(** A JavaScript array of strings; [None] is a hole (reads as
    [undefined]). *)
Definition array := list (option string).

Definition of_list (l : list string) : array := Some <$> l.

(** [arr[i] = v]: in range the slot is overwritten, out of range the
    array is extended with holes up to index [i]. *)
Definition array_set (i : nat) (v : string) (arr : array) : array :=
  if (i <? length arr)%nat then <[i := Some v]> arr
  else arr ++ replicate (i - length arr) None ++ [Some v].

(** [arr.slice(0, n)]. *)
Definition slice0 (n : nat) (arr : array) : array := take n arr.

Definition elem_text (e : option string) : string := default "" e.

(** [arr.join(sep)]: holes and [undefined] print as the empty string. *)
Fixpoint join (sep : string) (arr : array) : string :=
  match arr with
  | [] => ""
  | [e] => elem_text e
  | e :: rest => elem_text e +:+ sep +:+ join sep rest
  end.

(** JavaScript numbers, as far as the handlers use them. *)
Inductive number :=
| Num (z : Z)
| NaN.

Definition isNaN (n : number) : bool :=
  match n with NaN => true | Num _ => false end.

(** [StrWhiteSpaceChar] among 8-bit code units: TAB, LF, VT, FF, CR,
    SP and NBSP. *)
Definition is_space (c : ascii) : bool :=
  let n := nat_of_ascii c in
  ((9 <=? n) && (n <=? 13) || (n =? 32) || (n =? 160))%nat.

Fixpoint trim_start (s : string) : string :=
  match s with
  | String c s' => if is_space c then trim_start s' else s
  | EmptyString => s
  end.

(** Value of [c] as a digit in the given radix (10 or 16). *)
Definition digit_value (radix : Z) (c : ascii) : option Z :=
  let n := Z.of_nat (nat_of_ascii c) in
  if (48 <=? n) && (n <=? 57) then Some (n - 48)
  else if (radix =? 16) && (97 <=? n) && (n <=? 102) then Some (n - 87)
  else if (radix =? 16) && (65 <=? n) && (n <=? 70) then Some (n - 55)
  else None.

(** The longest prefix of digits, accumulated most significant first. *)
Fixpoint digits_prefix (radix : Z) (acc : Z) (s : string) : Z :=
  match s with
  | EmptyString => acc
  | String c s' =>
      match digit_value radix c with
      | Some d => digits_prefix radix (radix * acc + d) s'
      | None => acc
      end
  end.

Definition starts_with_digit (radix : Z) (s : string) : bool :=
  match s with
  | EmptyString => false
  | String c _ => bool_decide (is_Some (digit_value radix c))
  end.

(** [parseInt(s)] with no radix argument: leading white space is
    skipped, one sign is read, a [0x]/[0X] prefix selects radix 16, and
    the longest digit prefix is the value; no digit at all gives [NaN]. *)
Definition parseInt (s : string) : number :=
  let s1 := trim_start s in
  let '(sign, s2) :=
    match s1 with
    | String c r =>
        if Ascii.eqb c "-" then (-1, r)
        else if Ascii.eqb c "+" then (1, r)
        else (1, s1)
    | EmptyString => (1, s1)
    end in
  let '(radix, s3) :=
    match s2 with
    | String c0 (String c1 r) =>
        if Ascii.eqb c0 "0" && (Ascii.eqb c1 "x" || Ascii.eqb c1 "X") then (16, r)
        else (10, s2)
    | _ => (10, s2)
    end in
  if starts_with_digit radix s3 then Num (sign * digits_prefix radix 0 s3)
  else NaN.

(** An [Error] value, with the fields the handlers inspect. *)
Record error := mkError {
  name : string;
  message : string;
  code : option string;
  errors : list string
}.

(** [new Error(msg)]. *)
Definition Error (msg : string) : error :=
  {| name := "Error"; message := msg; code := None; errors := [] |}.

End Js.

(** ** [src/lib/utils.ts] *)

(** [truncateIP]. *)
Definition truncateIP (ip : option string) : option string :=
  match ip with
  | None => None
  | Some s =>
      if negb (Js.truthy ip) then None
      else if Js.includes "." s then
        let parts := Js.of_list (Js.split "."%char s) in
        let parts := Js.array_set 3 "0" parts in
        Some (Js.join "." parts)
      else if Js.includes ":" s then
        let parts := Js.of_list (Js.split ":"%char s) in
        Some (Js.join ":" (Js.slice0 4 parts) +:+ "::")
      else Some s
  end.

(** The four values of the [device_type] union. *)
Inductive DeviceType := mobile | tablet | desktop | unknown.

Definition DeviceType_str (d : DeviceType) : string :=
  match d with
  | mobile => "mobile"
  | tablet => "tablet"
  | desktop => "desktop"
  | unknown => "unknown"
  end.

Record ParsedUA := mkParsedUA {
  ua_device_type : DeviceType;
  ua_browser : string
}.

(** The [ua-parser-js] results the classifier reads: [getDevice().type]
    and [getBrowser().name], each possibly [undefined]. *)
Record UAParser := mkUAParser {
  getDevice_type : string -> option string;
  getBrowser_name : string -> option string
}.

(** [parseUserAgent]. *)
Definition parseUserAgent (P : UAParser) (userAgent : option string) : ParsedUA :=
  match userAgent with
  | None => mkParsedUA unknown "unknown"
  | Some ua =>
      if negb (Js.truthy userAgent) then mkParsedUA unknown "unknown"
      else
        let device_type :=
          let ty := getDevice_type P ua in
          if bool_decide (ty = Some "mobile") then mobile
          else if bool_decide (ty = Some "tablet") then tablet
          else if negb (Js.truthy ty)
                  || bool_decide (ty = Some "console")
                  || bool_decide (ty = Some "wearable") then desktop
          else desktop in
        let browserName := default "unknown" (Js.or_else (getBrowser_name P ua) (Some "unknown")) in
        mkParsedUA device_type browserName
  end.

(** [generateQRSchema]'s color pattern [/^#[0-9A-Fa-f]{6}$/], also the
    pattern of the two color CHECK constraints of [qr_codes]. *)
Definition is_hex_digit (c : ascii) : bool :=
  bool_decide (is_Some (Js.digit_value 16 c)).

Fixpoint all_hex (n : nat) (s : string) : bool :=
  match n, s with
  | O, EmptyString => true
  | S n', String c s' => is_hex_digit c && all_hex n' s'
  | _, _ => false
  end.

Definition hex_color (s : string) : bool :=
  match s with
  | String c rest => Ascii.eqb c "#" && all_hex 6 rest
  | EmptyString => false
  end.

(** Decimal text of an integer, as template literals and the database
    driver print it. *)
Definition Z_text (z : Z) : string :=
  DecimalString.NilEmpty.string_of_int (Z.to_int z).

Definition nat_text (n : nat) : string :=
  DecimalString.NilEmpty.string_of_uint (Nat.to_uint n).

(** ** Persisted schema ([db/schema.sql], [src/types/database.ts]) *)

Record QRCode := mkQRCode {
  id : Z;
  short_code : string;
  target_url : string;
  fg_color : string;
  bg_color : string;
  created_at : Z;
  scan_count : Z
}.

(** A row of [scans]; its [id] column is [scan_id] here.  [scanned_at] is
    in seconds since the epoch. *)
Record Scan := mkScan {
  scan_id : Z;
  qr_code_id : Z;
  scanned_at : Z;
  user_agent : option string;
  ip_address : option string;
  country : option string;
  city : option string;
  device_type : option string;
  browser : option string
}.

(** The two tables with the sequences behind their SERIAL columns. *)
Record Db := mkDb {
  qr_codes : list QRCode;
  scans : list Scan;
  qr_codes_id_seq : Z;
  scans_id_seq : Z
}.

(** The statements [src/lib/db.ts] sends. *)
Inductive Statement :=
| InsertQRCode (shortCode targetUrl fgColor bgColor : string)
| SelectQRCodeByShortCode (shortCode : string)
| SelectQRCodeById (qrId : Z)
| InsertScan (qrCodeId : Z)
| SelectTotalScans (qrCodeId : Z)
| SelectScansByDate (qrCodeId : Z)
| SelectDeviceBreakdown (qrCodeId : Z)
| SelectBrowserBreakdown (qrCodeId : Z)
| SelectLocationBreakdown (qrCodeId : Z).

(** One executed statement and the error it was rejected with, if any. *)
Record SqlCall := mkSqlCall {
  statement : Statement;
  rejected : option Js.error
}.

(** ** The world a request handler runs in *)

(** What the handler cannot control: the identifiers [nanoid] draws, the
    failures of the storage connection, the clock, the environment
    variable behind [getBaseURL].  Draws and statements are numbered from
    the start of the world. *)
Record Env := mkEnv {
  nanoid : nat -> nat -> string;
  sql_fault : nat -> option Js.error;
  now : nat -> Z;
  NEXT_PUBLIC_BASE_URL : option string
}.

Record World := mkWorld {
  db : Db;
  sql_log : list SqlCall;
  nanoid_draws : nat;
  console : list string
}.

(** The libraries whose results the handlers consume: [ua-parser-js],
    the URL test behind zod's [.url()], and [QRCode.toDataURL] ([None]
    when it throws). *)
Record Lib := mkLib {
  ua_parser : UAParser;
  zod_isURL : string -> bool;
  QRCode_toDataURL : string -> string -> string -> option string
}.

(** A computation either returns or throws; both leave a world behind. *)
Inductive Result (A : Type) :=
| Ok (a : A)
| Throw (e : Js.error).
Arguments Ok {A} a.
Arguments Throw {A} e.

Definition M (A : Type) : Type := World -> Result A * World.

Definition ret {A} (a : A) : M A := fun w => (Ok a, w).

Definition throw {A} (e : Js.error) : M A := fun w => (Throw e, w).

Definition bind {A B} (m : M A) (k : A -> M B) : M B :=
  fun w =>
    match m w with
    | (Ok a, w') => k a w'
    | (Throw e, w') => (Throw e, w')
    end.

(** [try { m } catch (error) { h error }]. *)
Definition try_catch {A} (m : M A) (h : Js.error -> M A) : M A :=
  fun w =>
    match m w with
    | (Ok a, w') => (Ok a, w')
    | (Throw e, w') => h e w'
    end.

Notation "x <- m ;; k" := (bind m (fun x => k))
  (at level 100, m at next level, right associativity).
Notation "m ;;; k" := (bind m (fun _ => k))
  (at level 100, right associativity).

(** [console.error(label, error)]. *)
Definition console_error (label : string) (e : Js.error) : M unit :=
  fun w =>
    (Ok (), {| db := db w; sql_log := sql_log w; nanoid_draws := nanoid_draws w;
               console := console w ++ [label +:+ " " +:+ Js.message e] |}).

(** [generateShortCode]: the next draw of [nanoid]. *)
Definition generateShortCode (E : Env) (length : nat) : M string :=
  fun w =>
    (Ok (nanoid E (nanoid_draws w) length),
     {| db := db w; sql_log := sql_log w; nanoid_draws := S (nanoid_draws w);
        console := console w |}).

(** [getBaseURL]. *)
Definition getBaseURL (E : Env) : string :=
  default "http://localhost:3000"
    (Js.or_else (NEXT_PUBLIC_BASE_URL E) (Some "http://localhost:3000")).

(** ** [src/lib/db.ts] over [db/schema.sql] *)

(** An error reported by the database, with its SQLSTATE in [code]. *)
Definition pg_error (sqlstate msg : string) : Js.error :=
  {| Js.name := "NeonDbError"; Js.message := msg; Js.code := Some sqlstate;
     Js.errors := [] |}.

Definition unique_violation (constraint : string) : Js.error :=
  pg_error "23505" ("duplicate key value violates unique constraint " +:+ constraint).

Definition check_violation (constraint : string) : Js.error :=
  pg_error "23514" ("new row violates check constraint " +:+ constraint).

Definition foreign_key_violation (constraint : string) : Js.error :=
  pg_error "23503" ("insert violates foreign key constraint " +:+ constraint).

Definition value_too_long : Js.error :=
  pg_error "22001" "value too long for type character varying".

Definition logged (st : Statement) (r : option Js.error) (d : Db) (w : World) : World :=
  {| db := d; sql_log := sql_log w ++ [mkSqlCall st r]; nanoid_draws := nanoid_draws w;
     console := console w |}.

(** The [sql] template tag: the statement is sent; the connection may
    fail it, otherwise the database executes it against the tables. *)
Definition sql {A} (E : Env) (st : Statement)
    (exec : Z -> Db -> Db * (Js.error + A)) : M A :=
  fun w =>
    let k := length (sql_log w) in
    match sql_fault E k with
    | Some e => (Throw e, logged st (Some e) (db w) w)
    | None =>
        match exec (now E k) (db w) with
        | (d', inl e) => (Throw e, logged st (Some e) d' w)
        | (d', inr a) => (Ok a, logged st None d' w)
        end
    end.

Definition too_long (n : nat) (s : string) : bool := (n <? String.length s)%nat.

Definition too_long_opt (n : nat) (s : option string) : bool :=
  from_option (too_long n) false s.

(** INSERT INTO qr_codes ... RETURNING *: the id is drawn from the
    sequence (also when the row is then rejected), the column types and
    CHECK constraints are tested, then the two unique indexes. *)
Definition insert_qr_code (shortCode targetUrl fgColor bgColor : string)
    (ts : Z) (d : Db) : Db * (Js.error + QRCode) :=
  let row := mkQRCode (qr_codes_id_seq d) shortCode targetUrl fgColor bgColor ts 0 in
  let d1 := mkDb (qr_codes d) (scans d) (qr_codes_id_seq d + 1) (scans_id_seq d) in
  if too_long 21 shortCode || too_long 7 fgColor || too_long 7 bgColor then
    (d1, inl value_too_long)
  else if negb (hex_color fgColor) then (d1, inl (check_violation "check_fg_color_format"))
  else if negb (hex_color bgColor) then (d1, inl (check_violation "check_bg_color_format"))
  else if (String.length targetUrl =? 0)%nat then
    (d1, inl (check_violation "check_target_url_not_empty"))
  else if bool_decide (Exists (λ q, id q = id row) (qr_codes d)) then
    (d1, inl (unique_violation "qr_codes_pkey"))
  else if bool_decide (Exists (λ q, short_code q = shortCode) (qr_codes d)) then
    (d1, inl (unique_violation "qr_codes_short_code_key"))
  else
    (mkDb (qr_codes d ++ [row]) (scans d) (qr_codes_id_seq d + 1) (scans_id_seq d),
     inr row).

(** [createQRCode]. *)
Definition createQRCode (E : Env) (shortCode targetUrl fgColor bgColor : string)
    : M QRCode :=
  sql E (InsertQRCode shortCode targetUrl fgColor bgColor)
      (insert_qr_code shortCode targetUrl fgColor bgColor).

(** [result.rows[0] || null] of a SELECT ... LIMIT 1. *)
Definition first_row {A} (rows : list A) : option A := head rows.

(** [getQRCodeByShortCode]. *)
Definition getQRCodeByShortCode (E : Env) (shortCode : string) : M (option QRCode) :=
  sql E (SelectQRCodeByShortCode shortCode)
      (fun _ d => (d, inr (first_row (filter (λ q, short_code q = shortCode) (qr_codes d))))).

(** [getQRCodeById]. *)
Definition getQRCodeById (E : Env) (qrId : Z) : M (option QRCode) :=
  sql E (SelectQRCodeById qrId)
      (fun _ d => (d, inr (first_row (filter (λ q, id q = qrId) (qr_codes d))))).

(** The argument object of [createScan]. *)
Record ScanInput := mkScanInput {
  in_qr_code_id : Z;
  in_user_agent : option string;
  in_ip_address : option string;
  in_country : option string;
  in_city : option string;
  in_device_type : option string;
  in_browser : option string
}.

Definition device_type_enum (v : option string) : bool :=
  match v with
  | None => true
  | Some s => bool_decide (s ∈ ["mobile"; "tablet"; "desktop"; "unknown"])
  end.

(** INSERT INTO scans: [scanned_at] defaults to the time of the statement;
    the foreign key to [qr_codes] is tested last. *)
Definition insert_scan (scan : ScanInput) (ts : Z) (d : Db) : Db * (Js.error + unit) :=
  let row := mkScan (scans_id_seq d) (in_qr_code_id scan) ts (in_user_agent scan)
               (in_ip_address scan) (in_country scan) (in_city scan)
               (in_device_type scan) (in_browser scan) in
  let d1 := mkDb (qr_codes d) (scans d) (qr_codes_id_seq d) (scans_id_seq d + 1) in
  if too_long_opt 45 (in_ip_address scan) || too_long_opt 2 (in_country scan)
     || too_long_opt 100 (in_city scan) || too_long_opt 20 (in_device_type scan)
     || too_long_opt 50 (in_browser scan) then (d1, inl value_too_long)
  else if negb (device_type_enum (in_device_type scan)) then
    (d1, inl (check_violation "check_device_type_enum"))
  else if bool_decide (Exists (λ s, scan_id s = scan_id row) (scans d)) then
    (d1, inl (unique_violation "scans_pkey"))
  else if negb (bool_decide (Exists (λ q, id q = in_qr_code_id scan) (qr_codes d))) then
    (d1, inl (foreign_key_violation "scans_qr_code_id_fkey"))
  else
    (mkDb (qr_codes d) (scans d ++ [row]) (qr_codes_id_seq d) (scans_id_seq d + 1),
     inr ()).

(** [createScan]. *)
Definition createScan (E : Env) (scan : ScanInput) : M unit :=
  sql E (InsertScan (in_qr_code_id scan)) (insert_scan scan).

(** *** Aggregates *)

(** The rows of [scans] WHERE qr_code_id = [qrCodeId]. *)
Definition scans_of (qrCodeId : Z) (d : Db) : list Scan :=
  filter (λ s, qr_code_id s = qrCodeId) (scans d).

(** GROUP BY with COUNT( * ): one row per distinct key (NULL is one key),
    with the number of rows that carry it. *)
Definition group_count `{EqDecision K} (keys : list K) : list (K * nat) :=
  (λ k, (k, length (filter (λ x, x = k) keys))) <$> remove_dups keys.

(** ORDER BY a key ascending, and ORDER BY count DESC. *)
Definition by_key_asc (a b : Z * nat) : Prop := a.1 ≤ b.1.
Definition by_count_desc {K} (a b : K * nat) : Prop := (b.2 ≤ a.2)%nat.

#[global] Instance by_key_asc_dec (a b : Z * nat) : Decision (by_key_asc a b) :=
  decide (a.1 ≤ b.1).
#[global] Instance by_count_desc_dec {K} (a b : K * nat) : Decision (by_count_desc a b) :=
  decide (b.2 ≤ a.2)%nat.

Definition order_by {A} (R : A -> A -> Prop) `{∀ x y, Decision (R x y)}
    (rows : list A) : list A := merge_sort R rows.

(** LIMIT n. *)
Definition limit {A} (n : nat) (rows : list A) : list A := take n rows.

(** COALESCE(v, 'unknown'). *)
Definition COALESCE_unknown (v : option string) : string := default "unknown" v.

(** DATE(scanned_at), as a day number (session time zone UTC). *)
Definition DATE (ts : Z) : Z := ts `div` 86400.

(** An output row [{ <label>, count }] after [parseInt(row.count)]. *)
Record Row (K : Type) := mkRow {
  label : K;
  count : Js.number
}.
Arguments mkRow {K} label count.
Arguments label {K} r.
Arguments count {K} r.

(** COUNT( * ) arrives as decimal text and goes through [parseInt]. *)
Definition to_row {K L} (f : K -> L) (r : K * nat) : Row L :=
  mkRow (f r.1) (Js.parseInt (nat_text r.2)).

(** [getTotalScans]. *)
Definition getTotalScans (E : Env) (qrCodeId : Z) : M Js.number :=
  c <- sql E (SelectTotalScans qrCodeId)
         (fun _ d => (d, inr (nat_text (length (scans_of qrCodeId d))))) ;;
  ret (Js.parseInt c).

(** [getScansByDate]. *)
Definition getScansByDate (E : Env) (qrCodeId : Z) : M (list (Row Z)) :=
  rows <- sql E (SelectScansByDate qrCodeId)
         (fun _ d => (d, inr (order_by by_key_asc
                                (group_count (DATE ∘ scanned_at <$> scans_of qrCodeId d))))) ;;
  ret (to_row (λ k, k) <$> rows).

(** [getDeviceBreakdown].  The name in GROUP BY device_type is both a
    column of [scans] and the alias of the COALESCE; PostgreSQL reads
    such a name as the input column, so the rows are grouped on the
    column as stored and the COALESCE is applied to each group's output. *)
Definition getDeviceBreakdown (E : Env) (qrCodeId : Z) : M (list (Row string)) :=
  rows <- sql E (SelectDeviceBreakdown qrCodeId)
         (fun _ d => (d, inr (group_count (device_type <$> scans_of qrCodeId d)))) ;;
  ret (to_row COALESCE_unknown <$> rows).

(** [getBrowserBreakdown]: grouped on the stored [browser] column in the
    same way, then ordered and cut. *)
Definition getBrowserBreakdown (E : Env) (qrCodeId : Z) : M (list (Row string)) :=
  rows <- sql E (SelectBrowserBreakdown qrCodeId)
         (fun _ d => (d, inr (limit 10 (order_by by_count_desc
                                (group_count (browser <$> scans_of qrCodeId d)))))) ;;
  ret (to_row COALESCE_unknown <$> rows).

(** [getLocationBreakdown]. *)
Definition getLocationBreakdown (E : Env) (qrCodeId : Z)
    : M (list (Row (string * string))) :=
  rows <- sql E (SelectLocationBreakdown qrCodeId)
         (fun _ d => (d, inr (limit 20 (order_by by_count_desc
                                (group_count ((λ s, (country s, city s)) <$> scans_of qrCodeId d)))))) ;;
  ret (to_row (λ k, (COALESCE_unknown k.1, COALESCE_unknown k.2)) <$> rows).

(** ** [src/lib/qr-generator.ts] *)

(** [generateQRCodeDataURL]: any failure of the renderer is logged and
    rethrown as a fixed error. *)
Definition generateQRCodeDataURL (L : Lib) (text fgColor bgColor : string) : M string :=
  try_catch
    (match QRCode_toDataURL L text fgColor bgColor with
     | Some dataUrl => ret dataUrl
     | None => throw (Js.Error "QRCode.toDataURL failed")
     end)
    (fun error =>
       console_error "QR code generation failed:" error ;;;
       throw (Js.Error "Failed to generate QR code")).

(** ** [src/types/api.ts] *)

(** A field of the request body: missing, a string, or something else. *)
Inductive JsonValue :=
| JUndefined
| JString (s : string)
| JOther.

(** The body of a POST: not JSON at all, JSON that is not an object, or
    an object with the three fields the schema reads. *)
Inductive RequestBody :=
| NotJson
| NotObject
| Object (targetUrl fgColor bgColor : JsonValue).

Record GenerateQRInput := mkGenerateQRInput {
  targetUrl : string;
  fgColor : string;
  bgColor : string
}.

Definition ZodError (issues : list string) : Js.error :=
  {| Js.name := "ZodError"; Js.message := "Validation failed"; Js.code := None;
     Js.errors := issues |}.

Definition check_targetUrl (L : Lib) (v : JsonValue) : list string :=
  match v with
  | JUndefined => ["Required"]
  | JOther => ["Expected string"]
  | JString s => if zod_isURL L s then [] else ["Must be a valid URL"]
  end.

Definition check_color (v : JsonValue) : list string :=
  match v with
  | JUndefined => []
  | JOther => ["Expected string"]
  | JString s => if hex_color s then [] else ["Must be a valid hex color"]
  end.

Definition string_or (dflt : string) (v : JsonValue) : string :=
  match v with
  | JString s => s
  | _ => dflt
  end.

(** [generateQRSchema.parse]. *)
Definition generateQRSchema_parse (L : Lib) (body : RequestBody) : M GenerateQRInput :=
  match body with
  | Object t f b =>
      match check_targetUrl L t ++ check_color f ++ check_color b with
      | [] => ret (mkGenerateQRInput (string_or "" t) (string_or "#000000" f)
                     (string_or "#FFFFFF" b))
      | issues => throw (ZodError issues)
      end
  | _ => throw (ZodError ["Expected object"])
  end.

(** ** HTTP responses *)

Module GenerateQRResponse.
Record t := mk {
  id : Z;
  short_code : string;
  short_url : string;
  qr_code_data_url : string;
  analytics_url : string
}.
End GenerateQRResponse.

Record ScanAnalytics := mkScanAnalytics {
  total_scans : Js.number;
  scans_by_date : list (Row Z);
  device_breakdown : list (Row string);
  browser_breakdown : list (Row string);
  location_breakdown : list (Row (string * string))
}.

(** The JSON bodies the handlers send: the 201 payload, the analytics
    payload, [{ error, details? }], and the 400 of the generate endpoint
    ([{ error: 'Invalid input', details: error.errors }]). *)
Inductive Body :=
| JsonGenerated (r : GenerateQRResponse.t)
| JsonAnalytics (a : ScanAnalytics)
| JsonError (error : string) (details : option string)
| JsonInvalidInput (details : list string)
| NoBody.

Record Response := mkResponse {
  status : Z;
  Location : option string;
  body : Body
}.

(** [NextResponse.json(body, { status })] and
    [NextResponse.redirect(url, status)], taken as constructors: the
    status and the Location are the arguments given. *)
Definition NextResponse_json (b : Body) (st : Z) : Response := mkResponse st None b.
Definition NextResponse_redirect (url : string) (st : Z) : Response :=
  mkResponse st (Some url) NoBody.

(** ** [POST /api/qr/generate] *)

Definition MAX_ATTEMPTS : nat := 5.

(** [request.json()]. *)
Definition request_json (request : RequestBody) : M RequestBody :=
  match request with
  | NotJson =>
      throw {| Js.name := "SyntaxError"; Js.message := "Unexpected token in JSON";
               Js.code := None; Js.errors := [] |}
  | _ => ret request
  end.

(** The test of the inner [catch]:
    [error.message?.includes('duplicate key') || error.code === '23505']. *)
Definition is_duplicate_key (error : Js.error) : bool :=
  Js.includes "duplicate key" (Js.message error)
  || bool_decide (Js.code error = Some "23505").

(** The body of the inner [try]: persist, render, answer 201. *)
Definition attempt (L : Lib) (E : Env) (shortCode : string)
    (validatedData : GenerateQRInput) : M Response :=
  qrCode <- createQRCode E shortCode (targetUrl validatedData)
              (fgColor validatedData) (bgColor validatedData) ;;
  let baseURL := getBaseURL E in
  let shortUrl := baseURL +:+ "/r/" +:+ shortCode in
  qrCodeDataUrl <- generateQRCodeDataURL L shortUrl (fgColor validatedData)
                     (bgColor validatedData) ;;
  ret (NextResponse_json
         (JsonGenerated
            (GenerateQRResponse.mk (id qrCode) shortCode shortUrl qrCodeDataUrl
               (baseURL +:+ "/analytics/" +:+ Z_text (id qrCode))))
         201).

(** The [while (attempts < MAX_ATTEMPTS)] loop, by recursion on
    [MAX_ATTEMPTS - attempts]: only the duplicate-key branch of the
    [catch] increments [attempts] and goes round again. *)
Fixpoint retry_loop (L : Lib) (E : Env) (remaining : nat) (shortCode : string)
    (validatedData : GenerateQRInput) : M Response :=
  match remaining with
  | O => throw (Js.Error "Failed to generate unique short code")
  | S remaining' =>
      try_catch (attempt L E shortCode validatedData)
        (fun error =>
           if is_duplicate_key error then
             shortCode' <- generateShortCode E 10 ;;
             retry_loop L E remaining' shortCode' validatedData
           else throw error)
  end.

Definition POST (L : Lib) (E : Env) (request : RequestBody) : M Response :=
  try_catch
    (body <- request_json request ;;
     validatedData <- generateQRSchema_parse L body ;;
     shortCode <- generateShortCode E 10 ;;
     retry_loop L E MAX_ATTEMPTS shortCode validatedData)
    (fun error =>
       console_error "QR generation error:" error ;;;
       if bool_decide (Js.name error = "ZodError") then
         ret (NextResponse_json (JsonInvalidInput (Js.errors error)) 400)
       else
         ret (NextResponse_json
                (JsonError "Failed to generate QR code" (Some (Js.message error))) 500)).

(** ** [GET /r/:shortCode] *)

(** [request.headers.get]. *)
Definition Headers := string -> option string.

(** The scan write is a detached promise with a [.catch]: it is run to
    its end here, and the response is built without its result. *)
Definition GET_redirect (L : Lib) (E : Env) (headers : Headers) (shortCode : string)
    : M Response :=
  try_catch
    (qrCode <- getQRCodeByShortCode E shortCode ;;
     match qrCode with
     | None => ret (NextResponse_json (JsonError "QR code not found" None) 404)
     | Some qrCode =>
         let userAgent := headers "user-agent" in
         let parsed := parseUserAgent (ua_parser L) userAgent in
         let ip := Js.or_else (headers "x-forwarded-for") (headers "x-real-ip") in
         let country := Js.or_else (headers "x-vercel-ip-country") None in
         let city := Js.or_else (headers "x-vercel-ip-city") None in
         let truncatedIP := truncateIP ip in
         try_catch
           (createScan E
              {| in_qr_code_id := id qrCode;
                 in_user_agent := userAgent;
                 in_ip_address := truncatedIP;
                 in_country := country;
                 in_city := city;
                 in_device_type := Some (DeviceType_str (ua_device_type parsed));
                 in_browser := Some (ua_browser parsed) |})
           (fun error => console_error "Failed to track scan:" error) ;;;
         ret (NextResponse_redirect (target_url qrCode) 302)
     end)
    (fun error =>
       console_error "Redirect error:" error ;;;
       ret (NextResponse_json (JsonError "Redirect failed" (Some (Js.message error))) 500)).

(** ** [GET /api/analytics/:qrId] *)

(** Two promises started one after the other and awaited together: both
    statements are sent, the first rejection wins. *)
Definition both {A B} (ma : M A) (mb : M B) : M (A * B) :=
  fun w =>
    let '(ra, w1) := ma w in
    let '(rb, w2) := mb w1 in
    (match ra, rb with
     | Ok a, Ok b => Ok (a, b)
     | Throw e, _ => Throw e
     | _, Throw e => Throw e
     end, w2).

Definition GET_analytics (E : Env) (qrId_param : string) : M Response :=
  try_catch
    (let qrId := Js.parseInt qrId_param in
     match qrId with
     | Js.NaN => ret (NextResponse_json (JsonError "Invalid QR code ID" None) 400)
     | Js.Num qrId =>
         qrCode <- getQRCodeById E qrId ;;
         match qrCode with
         | None => ret (NextResponse_json (JsonError "QR code not found" None) 404)
         | Some _ =>
             results <-
               both (getTotalScans E qrId)
                 (both (getScansByDate E qrId)
                    (both (getDeviceBreakdown E qrId)
                       (both (getBrowserBreakdown E qrId)
                          (getLocationBreakdown E qrId)))) ;;
             let '(totalScans, (scansByDate, (deviceBreakdown,
                   (browserBreakdown, locationBreakdown)))) := results in
             ret (NextResponse_json
                    (JsonAnalytics
                       (mkScanAnalytics totalScans scansByDate deviceBreakdown
                          browserBreakdown locationBreakdown))
                    200)
         end
     end)
    (fun error =>
       console_error "Analytics fetch error:" error ;;;
       ret (NextResponse_json
              (JsonError "Failed to fetch analytics" (Some (Js.message error))) 500)).

(** * Browser components *)

(** [response.ok]. *)
Definition response_ok (r : Response) : bool :=
  (200 <=? status r) && (status r <=? 299).

(** [await response.json()]: a response without a body does not parse. *)
Definition response_json (r : Response) : M Body :=
  match body r with
  | NoBody =>
      throw {| Js.name := "SyntaxError"; Js.message := "Unexpected end of JSON input";
               Js.code := None; Js.errors := [] |}
  | data => ret data
  end.

(** [data.error] of a parsed body. *)
Definition data_error (data : Body) : option string :=
  match data with
  | JsonError e _ => Some e
  | JsonInvalidInput _ => Some "Invalid input"
  | _ => None
  end.

(** [v || dflt] with a string literal on the right. *)
Definition or_text (v : option string) (dflt : string) : string :=
  if Js.truthy v then default dflt v else dflt.

(** ** [src/components/QRGenerator.tsx] *)

Module QRGenerator.

Record State := mkState {
  targetUrl : string;
  fgColor : string;
  bgColor : string;
  loading : bool;
  error : option string;
  result : option Body;
  showFgPicker : bool;
  showBgPicker : bool
}.

Definition initial : State :=
  mkState "" "#000000" "#FFFFFF" false None None false false.

Definition setLoading (v : bool) (st : State) : State :=
  mkState (targetUrl st) (fgColor st) (bgColor st) v (error st) (result st)
    (showFgPicker st) (showBgPicker st).
Definition setError (v : option string) (st : State) : State :=
  mkState (targetUrl st) (fgColor st) (bgColor st) (loading st) v (result st)
    (showFgPicker st) (showBgPicker st).
Definition setResult (v : option Body) (st : State) : State :=
  mkState (targetUrl st) (fgColor st) (bgColor st) (loading st) (error st) v
    (showFgPicker st) (showBgPicker st).

(** [handleGenerate]: the state after the handler has run to its end.
    [fetch] is the browser's: it resolves with a response or rejects. *)
Definition handleGenerate (fetch : string -> RequestBody -> M Response) (st : State)
    : M State :=
  let st := setResult None (setError None (setLoading true st)) in
  st <- try_catch
          (response <- fetch "/api/qr/generate"
                         (Object (JString (targetUrl st)) (JString (fgColor st))
                            (JString (bgColor st))) ;;
           data <- response_json response ;;
           if negb (response_ok response) then
             throw (Js.Error (or_text (data_error data) "Failed to generate QR code"))
           else ret (setResult (Some data) st))
          (fun err => ret (setError (Some (Js.message err)) st)) ;;
  ret (setLoading false st).

End QRGenerator.

(** ** [src/components/AnalyticsDashboard.tsx] *)

Module AnalyticsDashboard.

Record State := mkState {
  analytics : option Body;
  loading : bool;
  error : option string
}.

Definition initial : State := mkState None true None.

(** [fetchAnalytics], started by the effect. *)
Definition fetchAnalytics (fetch : string -> M Response) (qrId : string) (st : State)
    : M State :=
  st <- try_catch
          (response <- fetch ("/api/analytics/" +:+ qrId) ;;
           data <- response_json response ;;
           if negb (response_ok response) then
             throw (Js.Error (or_text (data_error data) "Failed to fetch analytics"))
           else ret (mkState (Some data) (loading st) (error st)))
          (fun err => ret (mkState (analytics st) (loading st) (Some (Js.message err)))) ;;
  ret (mkState (analytics st) false (error st)).

(** What the component returns: the loading notice, the error box,
    [null], or the dashboard with its total and the five conditional
    sections. *)
Inductive View :=
| Loading
| ErrorBox (message : string)
| Nothing
| Dashboard (total : Js.number)
    (scans_over_time devices browsers locations no_scans_yet : bool).

Definition nonempty {A} (l : list A) : bool := (0 <? length l)%nat.

(** [total_scans === 0]. *)
Definition is_zero (n : Js.number) : bool :=
  match n with
  | Js.Num 0 => true
  | _ => false
  end.

(** The render function; [None] when it throws (a payload without the
    analytics fields). *)
Definition render (st : State) : option View :=
  if loading st then Some Loading
  else if Js.truthy (error st) then Some (ErrorBox (default "" (error st)))
  else match analytics st with
       | None => Some Nothing
       | Some (JsonAnalytics a) =>
           Some (Dashboard (total_scans a)
                   (nonempty (scans_by_date a)) (nonempty (device_breakdown a))
                   (nonempty (browser_breakdown a)) (nonempty (location_breakdown a))
                   (is_zero (total_scans a)))
       | Some _ => None
       end.

End AnalyticsDashboard.

(** * Vocabulary of the statements *)

(** The scan the handler builds from the request headers. *)
Definition scan_of_request (L : Lib) (headers : Headers) (qrCode : QRCode) : ScanInput :=
  let parsed := parseUserAgent (ua_parser L) (headers "user-agent") in
  {| in_qr_code_id := id qrCode;
     in_user_agent := headers "user-agent";
     in_ip_address :=
       truncateIP (Js.or_else (headers "x-forwarded-for") (headers "x-real-ip"));
     in_country := Js.or_else (headers "x-vercel-ip-country") None;
     in_city := Js.or_else (headers "x-vercel-ip-city") None;
     in_device_type := Some (DeviceType_str (ua_device_type parsed));
     in_browser := Some (ua_browser parsed) |}.

(** The [i]-th candidate of an issuance that starts with [first] when
    [draws] identifiers have been drawn. *)
Definition candidate (E : Env) (first : string) (draws : nat) (i : nat) : string :=
  match i with
  | O => first
  | S j => nanoid E (draws + j) 10
  end.

(** What [attempt] returns once the row is persisted: 201, or the
    renderer's error. *)
Definition after_persist (L : Lib) (E : Env) (shortCode : string)
    (validatedData : GenerateQRInput) (row : QRCode) : Result Response :=
  match QRCode_toDataURL L (getBaseURL E +:+ "/r/" +:+ shortCode)
          (fgColor validatedData) (bgColor validatedData) with
  | Some dataUrl =>
      Ok (NextResponse_json
            (JsonGenerated
               (GenerateQRResponse.mk (id row) shortCode
                  (getBaseURL E +:+ "/r/" +:+ shortCode) dataUrl
                  (getBaseURL E +:+ "/analytics/" +:+ Z_text (id row))))
            201)
  | None => Throw (Js.Error "Failed to generate QR code")
  end.

Definition insert_of (validatedData : GenerateQRInput) (shortCode : string) : Statement :=
  InsertQRCode shortCode (targetUrl validatedData) (fgColor validatedData)
    (bgColor validatedData).

(** The world in which the loop starts: one identifier has been drawn. *)
Definition after_draw (w : World) : World :=
  {| db := db w; sql_log := sql_log w; nanoid_draws := S (nanoid_draws w);
     console := console w |}.

(** The answer of the outer [catch]. *)
Definition error_response (error : Js.error) : Response :=
  if bool_decide (Js.name error = "ZodError") then
    NextResponse_json (JsonInvalidInput (Js.errors error)) 400
  else
    NextResponse_json (JsonError "Failed to generate QR code" (Some (Js.message error))) 500.

(** The response of an exhausted issuance. *)
Definition RetryExhausted : Response :=
  NextResponse_json
    (JsonError "Failed to generate QR code" (Some "Failed to generate unique short code"))
    500.

(** An id written the canonical way: one or more decimal digits. *)
Definition is_decimal_digit (c : ascii) : bool :=
  ((48 <=? nat_of_ascii c) && (nat_of_ascii c <=? 57))%nat.

Fixpoint all_decimal (s : string) : bool :=
  match s with
  | EmptyString => true
  | String c s' => is_decimal_digit c && all_decimal s'
  end.

Definition is_numeric (s : string) : bool :=
  match s with
  | EmptyString => false
  | String _ _ => all_decimal s
  end.

(** The five aggregates over the scans of one code, as the five
    statements and their row mappers compute them. *)
Definition summarize (qrCodeId : Z) (d : Db) : ScanAnalytics :=
  let rows := scans_of qrCodeId d in
  {| total_scans := Js.parseInt (nat_text (length rows));
     scans_by_date :=
       to_row (λ k, k) <$> order_by by_key_asc (group_count (DATE ∘ scanned_at <$> rows));
     device_breakdown := to_row COALESCE_unknown <$> group_count (device_type <$> rows);
     browser_breakdown :=
       to_row COALESCE_unknown
         <$> limit 10 (order_by by_count_desc (group_count (browser <$> rows)));
     location_breakdown :=
       to_row (λ k, (COALESCE_unknown k.1, COALESCE_unknown k.2))
         <$> limit 20 (order_by by_count_desc
                         (group_count ((λ s, (country s, city s)) <$> rows))) |}.

(** The same store with every denormalized [scan_count] overwritten. *)
Definition with_scan_counts (f : QRCode -> Z) (w : World) : World :=
  {| db := {| qr_codes :=
                (λ q, mkQRCode (id q) (short_code q) (target_url q) (fg_color q)
                        (bg_color q) (created_at q) (f q)) <$> qr_codes (db w);
              scans := scans (db w);
              qr_codes_id_seq := qr_codes_id_seq (db w);
              scans_id_seq := scans_id_seq (db w) |};
     sql_log := sql_log w; nanoid_draws := nanoid_draws w; console := console w |}.

(** No failure of the connection during the next [m] statements. *)
Definition no_fault (E : Env) (w : World) (m : nat) : Prop :=
  forall i, (i < m)%nat -> sql_fault E (length (sql_log w) + i) = None.

(** [a] is listed before [b] in a count-descending breakdown. *)
Definition count_ge {K} (a b : Row K) : Prop :=
  exists x y, count a = Js.Num x /\ count b = Js.Num y /\ y <= x.

(** A color field the schema accepts: absent, or a [#RRGGBB] string. *)
Definition valid_color (v : JsonValue) : bool :=
  match v with
  | JUndefined => true
  | JString s => hex_color s
  | JOther => false
  end.

(** ** Sample environments, stores and requests *)

(** An environment in which the connection never fails and the [k]-th
    identifier drawn is [code-k]. *)
Definition quiet_env : Env :=
  {| nanoid := λ k _, "code-" +:+ nat_text k;
     sql_fault := λ _, None;
     now := λ k, 1700000000 + Z.of_nat k;
     NEXT_PUBLIC_BASE_URL := None |}.

Definition sample_qr : QRCode :=
  mkQRCode 7 "abc123xyz0" "https://example.com" "#000000" "#FFFFFF" 1700000000 0.

Definition sample_scan (n : Z) (ts : Z) (dev br : option string) : Scan :=
  mkScan n 7 ts None None None None dev br.

(** Two scans of code 7 whose device type is NULL and ['unknown']. *)
Definition mixed_unknown_db : Db :=
  {| qr_codes := [sample_qr];
     scans := [sample_scan 1 1700000100 None (Some "Chrome");
               sample_scan 2 1700090000 (Some "unknown") (Some "Chrome");
               sample_scan 3 1700090500 (Some "mobile") None];
     qr_codes_id_seq := 8;
     scans_id_seq := 4 |}.

Definition world_of (d : Db) : World :=
  {| db := d; sql_log := []; nanoid_draws := 0; console := [] |}.

(** A parser that detects nothing, and one that reads a few tokens. *)
Definition no_detection : UAParser := mkUAParser (λ _, None) (λ _, None).

Definition token_parser : UAParser :=
  mkUAParser
    (λ ua, if Js.includes "iPhone" ua then Some "mobile"
           else if Js.includes "iPad" ua then Some "tablet"
           else if Js.includes "Watch" ua then Some "wearable"
           else if Js.includes "PlayStation" ua then Some "console"
           else if Js.includes "SmartTV" ua then Some "smarttv"
           else None)
    (λ ua, if Js.includes "Chrome" ua then Some "Chrome"
           else if Js.includes "Safari" ua then Some "Safari"
           else None).

Definition sample_lib : Lib :=
  {| ua_parser := token_parser;
     zod_isURL := Js.includes "://";
     QRCode_toDataURL := λ _ _ _, Some "data:image/png;base64,AAAA" |}.

(** The renderer throws on every input. *)
Definition broken_renderer_lib : Lib :=
  {| ua_parser := token_parser;
     zod_isURL := Js.includes "://";
     QRCode_toDataURL := λ _ _ _, None |}.

Definition sample_world : World := world_of mixed_unknown_db.

Definition sample_request : RequestBody :=
  Object (JString "https://example.org/menu") JUndefined (JString "#FFEE00").

Definition iphone_headers : Headers :=
  λ h, if bool_decide (h = "user-agent") then Some "Mozilla/5.0 (iPhone) Safari"
       else if bool_decide (h = "x-real-ip") then Some "203.0.113.77"
       else None.

(** A forwarded-for chain too long for the [ip_address] column. *)
Definition proxied_headers : Headers :=
  λ h, if bool_decide (h = "x-forwarded-for")
       then Some "203.0.113.77, 198.51.100.10, 192.0.2.33, 203.0.113.99, 198.51.100.200"
       else None.

Definition connection_lost : Js.error :=
  {| Js.name := "NeonDbError"; Js.message := "connection terminated";
     Js.code := Some "08006"; Js.errors := [] |}.

(** The connection fails the statement numbered [k], and only it. *)
Definition fault_at (k : nat) : Env :=
  {| nanoid := nanoid quiet_env;
     sql_fault := λ i, if (i =? k)%nat then Some connection_lost else None;
     now := now quiet_env;
     NEXT_PUBLIC_BASE_URL := None |}.

(** Every identifier drawn is the short code already stored. *)
Definition colliding_env : Env :=
  {| nanoid := λ _ _, "abc123xyz0";
     sql_fault := λ _, None;
     now := now quiet_env;
     NEXT_PUBLIC_BASE_URL := Some "https://qr.example" |}.

Definition issued : Result Response * World := POST sample_lib quiet_env sample_request sample_world.

(** ** The constraints of [db/schema.sql] *)

(** The column widths and CHECK constraints of a [qr_codes] row. *)
Definition qr_row_ok (q : QRCode) : Prop :=
  too_long 21 (short_code q) = false
  /\ hex_color (fg_color q) = true
  /\ hex_color (bg_color q) = true
  /\ target_url q <> "".

(** The column widths and the CHECK constraint of a [scans] row. *)
Definition scan_row_ok (s : Scan) : Prop :=
  too_long_opt 45 (ip_address s) = false
  /\ too_long_opt 2 (country s) = false
  /\ too_long_opt 100 (city s) = false
  /\ too_long_opt 20 (device_type s) = false
  /\ too_long_opt 50 (browser s) = false
  /\ device_type_enum (device_type s) = true.

(** A store within the schema: primary keys, the unique short code, the
    foreign key of [scans], and the row constraints. *)
Record schema_ok (d : Db) : Prop := mk_schema_ok {
  qr_codes_pkey : NoDup (id <$> qr_codes d);
  qr_codes_short_code_key : NoDup (short_code <$> qr_codes d);
  qr_codes_checks : Forall qr_row_ok (qr_codes d);
  scans_pkey : NoDup (scan_id <$> scans d);
  scans_qr_code_id_fkey :
    Forall (λ s, Exists (λ q, id q = qr_code_id s) (qr_codes d)) (scans d);
  scans_checks : Forall scan_row_ok (scans d)
}.

(** Every run of [m] takes the tables from [d] to some [d'] with
    [R d d']. *)
Definition evolves {A} (R : relation Db) (m : M A) : Prop :=
  forall w r w', m w = (r, w') -> R (db w) (db w').

(** The tables only grow at the end, and the sequences only advance. *)
Definition grows (d d' : Db) : Prop :=
  qr_codes d `prefix_of` qr_codes d'
  /\ scans d `prefix_of` scans d'
  /\ qr_codes_id_seq d <= qr_codes_id_seq d'
  /\ scans_id_seq d <= scans_id_seq d'.

(** [P] is passed on from the tables before to the tables after. *)
Definition keeps (P : Db -> Prop) : relation Db := λ d d', P d -> P d'.

(** The requests [generateQRSchema] accepts: a JSON object whose
    [targetUrl] is a URL string and whose colors are valid or absent. *)
Definition schema_accepts (L : Lib) (request : RequestBody) : bool :=
  match request with
  | Object (JString url) f b => zod_isURL L url && valid_color f && valid_color b
  | _ => false
  end.

(** The issues zod reports for a request. *)
Definition schema_issues (L : Lib) (request : RequestBody) : list string :=
  match request with
  | Object t f b => check_targetUrl L t ++ check_color f ++ check_color b
  | _ => ["Expected object"]
  end.

(** A scan one of whose texts exceeds its column: the truncated address
    (45), the country (2), the city (100) or the browser name (50). *)
Definition too_wide (scan : ScanInput) : bool :=
  too_long_opt 45 (in_ip_address scan) || too_long_opt 2 (in_country scan)
  || too_long_opt 100 (in_city scan) || too_long_opt 50 (in_browser scan).

(** No scan with a NULL device type. *)
Definition devices_known (d : Db) : Prop :=
  Forall (λ s, device_type s <> None) (scans d).

(** The number in a [count] field, and the sum of the counts of a
    breakdown. *)
Definition count_value (n : Js.number) : Z :=
  match n with
  | Js.Num z => z
  | Js.NaN => 0
  end.

Definition counts_total {K} (rows : list (Row K)) : Z :=
  foldr (λ r acc, count_value (count r) + acc) 0 rows.

(** [db/seed.sql], loaded into empty tables at time [ts]. *)
Definition seed_db (ts : Z) : Db :=
  {| qr_codes :=
       [mkQRCode 1 "abc123xyz" "https://example.com" "#000000" "#FFFFFF" ts 0;
        mkQRCode 2 "def456uvw" "https://google.com" "#FF0000" "#FFFF00" ts 0;
        mkQRCode 3 "ghi789rst" "https://github.com" "#0000FF" "#E0E0E0" ts 0];
     scans :=
       [mkScan 1 1 (ts - 86400) (Some "Mozilla/5.0 (iPhone; CPU iPhone OS 15_0)") None
          (Some "US") (Some "San Francisco") (Some "mobile") (Some "Safari");
        mkScan 2 1 (ts - 43200) (Some "Mozilla/5.0 (Windows NT 10.0)") None
          (Some "US") (Some "New York") (Some "desktop") (Some "Chrome");
        mkScan 3 1 (ts - 7200) (Some "Mozilla/5.0 (Linux; Android 11)") None
          (Some "UK") (Some "London") (Some "mobile") (Some "Chrome");
        mkScan 4 2 (ts - 18000) (Some "Mozilla/5.0 (Macintosh; Intel Mac OS X)") None
          (Some "CA") (Some "Toronto") (Some "desktop") (Some "Safari");
        mkScan 5 2 (ts - 3600) (Some "Mozilla/5.0 (iPad; CPU OS 15_0)") None
          (Some "US") (Some "Austin") (Some "tablet") (Some "Safari")];
     qr_codes_id_seq := 4;
     scans_id_seq := 6 |}.

Definition seeded_world : World := world_of (seed_db 1770000000).

(** * Properties *)

(** ** Strings: [includes], [split], [join] *)

Section StringFacts.

Lemma includes_char_cons (c x : ascii) (s : string) :
  Js.includes (String c "") (String x s)
  = bool_decide (c = x) || Js.includes (String c "") s.
Proof.
  cbn [Js.includes String.prefix].
  destruct (Ascii.ascii_dec c x) as [->|Hne].
  - rewrite bool_decide_eq_true_2 by done. by destruct s.
  - by rewrite bool_decide_eq_false_2.
Qed.

Lemma includes_char_nil (c : ascii) : Js.includes (String c "") "" = false.
Proof. reflexivity. Qed.

Lemma includes_char_app (c : ascii) (a b : string) :
  Js.includes (String c "") (a +:+ b)
  = Js.includes (String c "") a || Js.includes (String c "") b.
Proof.
  induction a as [|x a IH].
  - by rewrite includes_char_nil.
  - change (String x a +:+ b) with (String x (a +:+ b)).
    rewrite !includes_char_cons, IH. by rewrite orb_assoc.
Qed.

Lemma split_nonempty (sep : ascii) (s : string) : Js.split sep s <> [].
Proof.
  destruct s as [|c s]; cbn; [done|].
  destruct (Ascii.eqb c sep); [done|]. by destruct (Js.split sep s).
Qed.

(** A string without the separator is one segment. *)
Lemma split_whole (sep : ascii) (s : string) :
  Js.includes (String sep "") s = false -> Js.split sep s = [s].
Proof.
  induction s as [|c s IH]; [done|].
  rewrite includes_char_cons. intros [Hc Hs]%orb_false_iff.
  apply bool_decide_eq_false in Hc.
  cbn [Js.split]. destruct (Ascii.eqb_spec c sep) as [->|_]; [done|].
  by rewrite (IH Hs).
Qed.

(** The first segment ends at the first separator. *)
Lemma split_app (sep : ascii) (a rest : string) :
  Js.includes (String sep "") a = false ->
  Js.split sep (a +:+ String sep rest) = a :: Js.split sep rest.
Proof.
  induction a as [|c a IH].
  - intros _. change ("" +:+ String sep rest) with (String sep rest).
    cbn [Js.split]. by rewrite Ascii.eqb_refl.
  - rewrite includes_char_cons. intros [Hc Hs]%orb_false_iff.
    apply bool_decide_eq_false in Hc.
    change (String c a +:+ String sep rest) with (String c (a +:+ String sep rest)).
    cbn [Js.split]. destruct (Ascii.eqb_spec c sep) as [->|_]; [done|].
    by rewrite (IH Hs).
Qed.

Lemma char_app (c : ascii) (r : string) : String c "" +:+ r = String c r.
Proof. reflexivity. Qed.

Lemma append_assoc (a b c : string) : (a +:+ b) +:+ c = a +:+ b +:+ c.
Proof.
  induction a as [|x a IH]; [done|].
  change (String x ((a +:+ b) +:+ c) = String x (a +:+ b +:+ c)). by rewrite IH.
Qed.

Lemma truthy_nonempty (s : string) : s <> "" -> Js.truthy (Some s) = true.
Proof. by destruct s. Qed.

Lemma app_nonempty_l (c : ascii) (a b : string) : a +:+ String c b <> "".
Proof. by destruct a. Qed.

End StringFacts.

(** ** PrivacyFilter *)

Example truncateIP_short_input : truncateIP (Some "1.2") = Some "1.2..0".
Proof. reflexivity. Qed.

Example truncateIP_forwarded_chain :
  truncateIP (Some "1.2.3.4, 5.6.7.8") = Some "1.2.3.0.6.7.8".
Proof. reflexivity. Qed.

Example truncateIP_v6 :
  truncateIP (Some "2001:db8:85a3:8d3:1319:8a2e:370:7348") = Some "2001:db8:85a3:8d3::".
Proof. reflexivity. Qed.

(** C6, as stated, fails on two inputs.  The empty string has neither a
    dot nor a colon, so it is of "any other format", yet it is not
    returned unchanged: it becomes null.  And the colon-delimited address
    [::ffff:10.0.0.7] is not reduced to its first four groups plus [::]:
    the dot test comes first. *)
Lemma truncateIP_claim_counterexample :
  (Js.includes "." "" = false /\ Js.includes ":" "" = false
   /\ truncateIP (Some "") <> Some "")
  /\ (Js.includes ":" "::ffff:10.0.0.7" = true
      /\ truncateIP (Some "::ffff:10.0.0.7") = Some "::ffff:10.0.0.0"
      /\ truncateIP (Some "::ffff:10.0.0.7")
         <> Some (Js.join ":" (Js.slice0 4 (Js.of_list (Js.split ":" "::ffff:10.0.0.7")))
                  +:+ "::")).
Proof. repeat split; try reflexivity; discriminate. Qed.

(** C6, amended.  [truncateIP] maps null and the empty string to null;
    a dotted quad [a.b.c.d] to [a.b.c.0]; a non-empty address with a
    colon and no dot to its first four colon-separated groups followed by
    [::]; every other non-empty input to itself. *)
Theorem truncateIP_spec :
  truncateIP None = None
  /\ truncateIP (Some "") = None
  /\ truncateIP (Some "192.168.1.100") = Some "192.168.1.0"
  /\ (forall a b c d : string,
        Js.includes "." a = false -> Js.includes "." b = false ->
        Js.includes "." c = false -> Js.includes "." d = false ->
        truncateIP (Some (a +:+ "." +:+ b +:+ "." +:+ c +:+ "." +:+ d))
        = Some (a +:+ "." +:+ b +:+ "." +:+ c +:+ "." +:+ "0"))
  /\ (forall s : string,
        Js.includes "." s = false -> Js.includes ":" s = true ->
        truncateIP (Some s)
        = Some (Js.join ":" (Js.slice0 4 (Js.of_list (Js.split ":" s))) +:+ "::"))
  /\ (forall g1 g2 g3 g4 rest : string,
        Js.includes ":" g1 = false -> Js.includes ":" g2 = false ->
        Js.includes ":" g3 = false -> Js.includes ":" g4 = false ->
        Js.includes "." (g1 +:+ ":" +:+ g2 +:+ ":" +:+ g3 +:+ ":" +:+ g4 +:+ ":" +:+ rest) = false ->
        truncateIP (Some (g1 +:+ ":" +:+ g2 +:+ ":" +:+ g3 +:+ ":" +:+ g4 +:+ ":" +:+ rest))
        = Some (g1 +:+ ":" +:+ g2 +:+ ":" +:+ g3 +:+ ":" +:+ g4 +:+ "::"))
  /\ (forall s : string,
        s <> "" -> Js.includes "." s = false -> Js.includes ":" s = false ->
        truncateIP (Some s) = Some s).
Proof.
  split; [done|]. split; [done|]. split; [done|].
  assert (Hcolon : forall s : string,
            Js.includes "." s = false -> Js.includes ":" s = true ->
            truncateIP (Some s)
            = Some (Js.join ":" (Js.slice0 4 (Js.of_list (Js.split ":" s))) +:+ "::")).
  { intros s Hdot Hcol. unfold truncateIP.
    destruct s as [|x s]; [discriminate Hcol|]. cbn [Js.truthy negb].
    by rewrite Hdot, Hcol. }
  split; [|split; [exact Hcolon|split]].
  - intros a b c d Ha Hb Hc Hd. unfold truncateIP.
    rewrite !char_app.
    rewrite truthy_nonempty by apply app_nonempty_l. cbn [negb].
    rewrite includes_char_app, includes_char_cons, bool_decide_eq_true_2 by done.
    rewrite orb_true_r.
    rewrite (split_app "." a), (split_app "." b), (split_app "." c),
      (split_whole "." d) by done.
    cbn. by destruct a, b, c.
  - intros g1 g2 g3 g4 rest H1 H2 H3 H4 Hdot.
    rewrite !char_app in *.
    rewrite Hcolon; [|done|].
    + rewrite (split_app ":" g1), (split_app ":" g2), (split_app ":" g3),
        (split_app ":" g4) by done.
      cbn [Js.of_list fmap list_fmap Js.slice0 take Js.join Js.elem_text default].
      by rewrite !append_assoc, !char_app.
    + rewrite includes_char_app, includes_char_cons, bool_decide_eq_true_2 by done.
      by rewrite orb_true_r.
  - intros s Hne Hdot Hcol. unfold truncateIP.
    rewrite truthy_nonempty by done. cbn [negb]. by rewrite Hdot, Hcol.
Qed.

Lemma truncateIP_spec_witness :
  truncateIP (Some "10.20.30.40") = Some "10.20.30.0"
  /\ truncateIP (Some "fe80:1:2:3:4:5") = Some "fe80:1:2:3::"
  /\ truncateIP (Some "localhost") = Some "localhost".
Proof.
  destruct truncateIP_spec as (_ & _ & _ & Hquad & _ & Hgroups & Hother).
  split; [|split].
  - apply (Hquad "10" "20" "30" "40"); reflexivity.
  - apply (Hgroups "fe80" "1" "2" "3" "4:5"); reflexivity.
  - apply (Hother "localhost"); [discriminate|reflexivity|reflexivity].
Defined.

(** ** UserAgentClassifier *)

Example parseUserAgent_samples :
  parseUserAgent token_parser (Some "Mozilla/5.0 (iPhone) Safari") = mkParsedUA mobile "Safari"
  /\ parseUserAgent token_parser (Some "Mozilla/5.0 (iPad) Chrome") = mkParsedUA tablet "Chrome"
  /\ parseUserAgent token_parser (Some "Watch OS") = mkParsedUA desktop "unknown"
  /\ parseUserAgent token_parser (Some "SmartTV") = mkParsedUA desktop "unknown"
  /\ parseUserAgent token_parser (Some "curl/8.0") = mkParsedUA desktop "unknown".
Proof. repeat split; reflexivity. Qed.

(** C7, as stated, fails on the empty string: it is a non-null input on
    which nothing is detected, so the claim classifies it as desktop, but
    the classifier answers unknown. *)
Lemma parseUserAgent_claim_counterexample :
  getDevice_type no_detection "" = None
  /\ ua_device_type (parseUserAgent no_detection (Some "")) = unknown
  /\ ua_device_type (parseUserAgent no_detection (Some "")) <> desktop.
Proof. repeat split; discriminate. Qed.

(** C7, amended.  Absent (null) and empty input yield device type unknown
    and browser "unknown".  For every non-empty input the device type is
    mobile exactly when the parser detects mobile, tablet exactly when it
    detects tablet, and desktop in every other case (console, wearable,
    any other class, nothing detected); the browser is the parsed name,
    or the literal "unknown" when no name (or an empty one) is parsed. *)
Theorem parseUserAgent_spec (P : UAParser) :
  parseUserAgent P None = mkParsedUA unknown "unknown"
  /\ parseUserAgent P (Some "") = mkParsedUA unknown "unknown"
  /\ (forall ua : string, ua <> "" ->
        let r := parseUserAgent P (Some ua) in
        (ua_device_type r = mobile <-> getDevice_type P ua = Some "mobile")
        /\ (ua_device_type r = tablet <-> getDevice_type P ua = Some "tablet")
        /\ (getDevice_type P ua <> Some "mobile" ->
            getDevice_type P ua <> Some "tablet" -> ua_device_type r = desktop)
        /\ (Js.truthy (getBrowser_name P ua) = false -> ua_browser r = "unknown")
        /\ (forall b, getBrowser_name P ua = Some b -> b <> "" -> ua_browser r = b)).
Proof.
  split; [done|]. split; [done|].
  intros ua Hne r. subst r. unfold parseUserAgent.
  rewrite truthy_nonempty by done. cbn [negb ua_device_type ua_browser].
  repeat split.
  - repeat case_bool_decide; try done; by destruct (_ || _).
  - by intros ->.
  - repeat case_bool_decide; try done; try congruence; by destruct (_ || _).
  - intros ->. by rewrite bool_decide_eq_false_2.
  - intros H1 H2. rewrite !bool_decide_eq_false_2 by done. by destruct (_ || _).
  - intros Hb. unfold Js.or_else. by rewrite Hb.
  - intros b Hb Hbne. unfold Js.or_else. by rewrite Hb, truthy_nonempty.
Qed.

Lemma parseUserAgent_spec_witness :
  parseUserAgent token_parser (Some "Watch OS") = mkParsedUA desktop "unknown".
Proof.
  destruct (parseUserAgent_spec token_parser) as (_ & _ & H).
  destruct (H "Watch OS") as (_ & _ & Hd & Hb & _); [discriminate|].
  cbv zeta in Hd, Hb.
  destruct (parseUserAgent token_parser (Some "Watch OS")) as [dev br].
  cbn [ua_device_type ua_browser] in Hd, Hb.
  rewrite Hd, Hb; [reflexivity|reflexivity|discriminate|discriminate].
Defined.

(** ** The storage layer *)

Section Storage.
Context (E : Env).

(** A statement that only reads returns its result unless the
    connection fails it; the tables are left as they were. *)
Lemma sql_read {A} (st : Statement) (f : Db -> A) (w : World) :
  sql E st (fun _ d => (d, inr (f d))) w
  = match sql_fault E (length (sql_log w)) with
    | Some e => (Throw e, logged st (Some e) (db w) w)
    | None => (Ok (f (db w)), logged st None (db w) w)
    end.
Proof. unfold sql. by destruct (sql_fault E _). Qed.

Lemma getQRCodeByShortCode_run (shortCode : string) (w : World) :
  getQRCodeByShortCode E shortCode w
  = match sql_fault E (length (sql_log w)) with
    | Some e => (Throw e, logged (SelectQRCodeByShortCode shortCode) (Some e) (db w) w)
    | None =>
        (Ok (first_row (filter (λ q, short_code q = shortCode) (qr_codes (db w)))),
         logged (SelectQRCodeByShortCode shortCode) None (db w) w)
    end.
Proof. apply sql_read. Qed.

Lemma getQRCodeById_run (qrId : Z) (w : World) :
  getQRCodeById E qrId w
  = match sql_fault E (length (sql_log w)) with
    | Some e => (Throw e, logged (SelectQRCodeById qrId) (Some e) (db w) w)
    | None =>
        (Ok (first_row (filter (λ q, id q = qrId) (qr_codes (db w)))),
         logged (SelectQRCodeById qrId) None (db w) w)
    end.
Proof. apply sql_read. Qed.

(** A lookup finds nothing exactly when no row matches. *)
Lemma first_row_filter_None {A} (P : A -> Prop) `{∀ x, Decision (P x)} (l : list A) :
  first_row (filter P l) = None <-> Forall (λ x, ¬ P x) l.
Proof.
  unfold first_row. rewrite head_None. split.
  - intros Hnil. apply Forall_forall. intros x Hx HP.
    assert (x ∈ filter P l) as Hin by by apply list_elem_of_filter.
    rewrite Hnil in Hin. by apply elem_of_nil in Hin.
  - intros Hall. apply elem_of_nil_inv. intros x [HP Hx]%list_elem_of_filter.
    rewrite Forall_forall in Hall. by apply (Hall x).
Qed.

Lemma first_row_filter_Some {A} (P : A -> Prop) `{∀ x, Decision (P x)} (l : list A) (x : A) :
  first_row (filter P l) = Some x -> x ∈ l /\ P x.
Proof.
  unfold first_row. intros Hh. apply head_Some_elem_of in Hh.
  by apply list_elem_of_filter in Hh as [? ?].
Qed.

(** The row a short code resolves to, when it is the only one that
    carries the code. *)
Lemma getQRCodeByShortCode_hit (w : World) (qrCode : QRCode) :
  sql_fault E (length (sql_log w)) = None ->
  qrCode ∈ qr_codes (db w) ->
  (forall q, q ∈ qr_codes (db w) -> short_code q = short_code qrCode -> q = qrCode) ->
  getQRCodeByShortCode E (short_code qrCode) w
  = (Ok (Some qrCode),
     logged (SelectQRCodeByShortCode (short_code qrCode)) None (db w) w).
Proof.
  intros Hfault Hin Huniq. rewrite getQRCodeByShortCode_run, Hfault.
  destruct (first_row _) as [q|] eqn:Hrow.
  - apply (first_row_filter_Some (λ q, short_code q = short_code qrCode)) in Hrow as [Hq Hc].
    by rewrite (Huniq q Hq Hc).
  - apply (first_row_filter_None (λ q, short_code q = short_code qrCode)) in Hrow.
    rewrite Forall_forall in Hrow. by destruct (Hrow qrCode Hin).
Qed.

(** The unique index at work: an INSERT keeps the short codes of
    [qr_codes] pairwise distinct, whether it is accepted or rejected. *)
Lemma insert_qr_code_keeps_codes_unique (shortCode targetUrl fg bg : string) (ts : Z)
    (d : Db) :
  NoDup (short_code <$> qr_codes d) ->
  NoDup (short_code <$> qr_codes (insert_qr_code shortCode targetUrl fg bg ts d).1).
Proof.
  intros Hnd. unfold insert_qr_code.
  repeat match goal with
         | |- context [if bool_decide ?P then _ else _] =>
             destruct (decide P);
             [by rewrite bool_decide_eq_true_2|rewrite bool_decide_eq_false_2 by done]
         | |- context [if ?b then _ else _] => destruct b; [done|]
         end.
  cbn. rewrite fmap_app. apply NoDup_app. split; [done|]. split; [|apply NoDup_singleton].
  intros c Hc [->|[]%elem_of_nil]%elem_of_cons.
  apply list_elem_of_fmap in Hc as (q & Hq & Hin).
  match goal with H : ¬ Exists (λ q, short_code q = _) _ |- _ => apply H end.
  apply Exists_exists. eauto.
Qed.

(** A scan write never throws out of its [catch]; it changes [scans]
    only by appending the new row. *)
Lemma createScan_cases (scan : ScanInput) (w : World) :
  (exists e d', createScan E scan w = (Throw e, logged (InsertScan (in_qr_code_id scan)) (Some e) d' w)
                /\ scans d' = scans (db w) /\ qr_codes d' = qr_codes (db w))
  \/ (exists d', createScan E scan w = (Ok (), logged (InsertScan (in_qr_code_id scan)) None d' w)
                /\ qr_codes d' = qr_codes (db w)
                /\ scans d' = scans (db w)
                     ++ [mkScan (scans_id_seq (db w)) (in_qr_code_id scan)
                           (now E (length (sql_log w))) (in_user_agent scan)
                           (in_ip_address scan) (in_country scan) (in_city scan)
                           (in_device_type scan) (in_browser scan)]).
Proof.
  unfold createScan, sql. destruct (sql_fault E _) as [e|].
  { left. by exists e, (db w). }
  unfold insert_scan.
  repeat (match goal with |- context [if ?b then _ else _] => destruct b end;
          [left; by eexists _, _|]).
  right. by eexists.
Qed.

End Storage.

(** ** RedirectHandler *)


(** C4.  When no stored QRCode carries the short code, the handler sends
    the one lookup and nothing else, the scans are unchanged, and (the
    lookup answering) the response is 404. *)
Theorem GET_redirect_miss_no_scan
    (L : Lib) (E : Env) (headers : Headers) (shortCode : string) (w : World) :
  Forall (fun q => short_code q <> shortCode) (qr_codes (db w)) ->
  exists (r : Response) (w' : World) (call : SqlCall),
    GET_redirect L E headers shortCode w = (Ok r, w')
    /\ scans (db w') = scans (db w)
    /\ sql_log w' = sql_log w ++ [call]
    /\ statement call = SelectQRCodeByShortCode shortCode
    /\ (sql_fault E (length (sql_log w)) = None ->
        r = NextResponse_json (JsonError "QR code not found" None) 404).
Proof.
  intros Hnone. unfold GET_redirect, try_catch, bind.
  rewrite getQRCodeByShortCode_run.
  destruct (sql_fault E _) as [e|].
  - eexists _, _, _. split; [reflexivity|]. cbn. done.
  - apply (first_row_filter_None (λ q, short_code q = shortCode)) in Hnone as ->.
    eexists _, _, _. split; [reflexivity|]. cbn. done.
Qed.

(** ** ShortCodeRegistry: issuance *)

Section Issuance.
Context (L : Lib) (E : Env).

(** One attempt sends one INSERT.  Rejected, its error is thrown and
    [qr_codes] is as before; accepted, the new row is in [qr_codes],
    whatever the renderer does next. *)
Lemma attempt_cases (c : string) (data : GenerateQRInput) (w : World) :
  exists (r : Result Response) (w' : World) (call : SqlCall),
    attempt L E c data w = (r, w')
    /\ sql_log w' = sql_log w ++ [call]
    /\ statement call = insert_of data c
    /\ nanoid_draws w' = nanoid_draws w
    /\ scans (db w') = scans (db w)
    /\ match rejected call with
       | Some e => r = Throw e /\ qr_codes (db w') = qr_codes (db w)
       | None =>
           exists row : QRCode,
             qr_codes (db w') = qr_codes (db w) ++ [row]
             /\ short_code row = c
             /\ target_url row = targetUrl data
             /\ Forall (fun q => short_code q <> c) (qr_codes (db w))
             /\ r = after_persist L E c data row
       end.
Proof.
  unfold attempt, bind at 1, createQRCode, sql.
  destruct (sql_fault E _) as [e|].
  { eexists _, _, _. split; [reflexivity|]. by cbn. }
  unfold insert_qr_code.
  repeat match goal with
    | |- context [if bool_decide ?P then _ else _] =>
        destruct (decide P);
        [rewrite bool_decide_eq_true_2 by done;
         eexists _, _, _; split; [reflexivity|]; by cbn
        |rewrite bool_decide_eq_false_2 by done]
    | |- context [if ?b then _ else _] =>
        destruct b; [eexists _, _, _; split; [reflexivity|]; by cbn|]
    end.
  unfold bind, generateQRCodeDataURL, try_catch, after_persist.
  destruct (QRCode_toDataURL L _ _ _) as [u|].
  - eexists _, _, _. split; [reflexivity|]. cbn. repeat split; try done.
    eexists. repeat split; try done. apply Forall_forall; intros q Hq Heq;
      match goal with H : ¬ Exists (λ q, short_code q = _) _ |- _ => apply H end;
      apply Exists_exists; eauto.
  - eexists _, _, _. split; [reflexivity|]. cbn. repeat split; try done.
    eexists. repeat split; try done. apply Forall_forall; intros q Hq Heq;
      match goal with H : ¬ Exists (λ q, short_code q = _) _ |- _ => apply H end;
      apply Exists_exists; eauto.
Qed.

Lemma is_duplicate_key_render_error :
  is_duplicate_key (Js.Error "Failed to generate QR code") = false.
Proof. reflexivity. Qed.

Lemma after_persist_not_duplicate (c : string) (data : GenerateQRInput) (row : QRCode)
    (e : Js.error) :
  after_persist L E c data row = Throw e -> is_duplicate_key e = false.
Proof.
  unfold after_persist. destruct (QRCode_toDataURL L _ _ _); [done|].
  by intros [= <-].
Qed.

(** The loop with [n] rounds left.  It sends at most [n] INSERTs, the
    [i]-th for the [i]-th candidate; every INSERT but the last was
    rejected as a duplicate key; and it ends in one of three ways. *)
Lemma retry_loop_run (n : nat) (c : string) (data : GenerateQRInput) (w : World) :
  exists (r : Result Response) (w' : World) (t : list SqlCall),
    retry_loop L E n c data w = (r, w')
    /\ sql_log w' = sql_log w ++ t
    /\ (length t <= n)%nat
    /\ scans (db w') = scans (db w)
    /\ (forall i call, t !! i = Some call ->
          statement call = insert_of data (candidate E c (nanoid_draws w) i))
    /\ (forall i call, t !! i = Some call -> (S i < length t)%nat ->
          exists e, rejected call = Some e /\ is_duplicate_key e = true)
    /\ ((length t = n
         /\ (forall call, last t = Some call ->
               exists e, rejected call = Some e /\ is_duplicate_key e = true)
         /\ r = Throw (Js.Error "Failed to generate unique short code")
         /\ qr_codes (db w') = qr_codes (db w))
        \/ (exists call e,
              last t = Some call /\ rejected call = Some e
              /\ is_duplicate_key e = false /\ r = Throw e
              /\ qr_codes (db w') = qr_codes (db w))
        \/ (exists call code row,
              last t = Some call /\ rejected call = None
              /\ statement call = insert_of data code
              /\ qr_codes (db w') = qr_codes (db w) ++ [row]
              /\ short_code row = code
              /\ target_url row = targetUrl data
              /\ Forall (fun q => short_code q <> code) (qr_codes (db w))
              /\ r = after_persist L E code data row)).
Proof.
  revert c w. induction n as [|n IH]; intros c w.
  { exists (Throw (Js.Error "Failed to generate unique short code")), w, [].
    cbn. rewrite app_nil_r. repeat split; try done. left. done. }
  cbn [retry_loop]. unfold try_catch.
  destruct (attempt_cases c data w)
    as (r0 & w0 & call & -> & Hlog & Hst & Hdraws & Hscans & Hcase).
  destruct (rejected call) as [e|] eqn:Hrej.
  - destruct Hcase as [-> Hqr].
    destruct (is_duplicate_key e) eqn:Hdup.
    + unfold bind, generateShortCode.
      match goal with |- context [retry_loop L E n ?c' data ?w1] =>
        destruct (IH c' w1) as (r & w' & t & -> & Hlog' & Hlen & Hscans' & Hcand & Hmid & Hend)
      end.
      cbn [db sql_log nanoid_draws] in *.
      exists r, w', (call :: t). split; [done|].
      split; [by rewrite Hlog', Hlog, <- app_assoc|].
      split; [cbn; lia|]. split; [congruence|].
      split; [|split].
      * intros [|i] call' Hi; cbn in Hi.
        { by injection Hi as <-. }
        rewrite (Hcand i call' Hi). f_equal. destruct i as [|j]; cbn; rewrite Hdraws.
        -- by rewrite Nat.add_0_r.
        -- f_equal. lia.
      * intros [|i] call' Hi Hlt; cbn in Hi, Hlt.
        { injection Hi as <-. eauto. }
        apply (Hmid i call' Hi). lia.
      * assert (Hlast : forall x, last t = Some x -> last (call :: t) = Some x).
        { intros x Hx. destruct t; [done|]. done. }
        destruct Hend as [(Hn & Hall & -> & Hqr')|[(cl & e' & Hl & Hr & Hd & -> & Hqr')
                         |(cl & code & row & Hl & Hr & Hs & Hqr' & Hsc & Htu & Hfa & ->)]].
        -- left. split; [cbn; lia|]. split; [|split; [done|congruence]].
           intros x Hx. destruct t as [|y t]; [|by apply Hall].
           cbn in Hx. injection Hx as <-. eauto.
        -- right. left. exists cl, e'. repeat split; auto. congruence.
        -- right. right. exists cl, code, row. rewrite <- Hqr.
           repeat split; auto.
    + exists (Throw e), w0, [call]. split; [done|]. split; [done|].
      split; [cbn; lia|]. split; [done|]. split; [|split].
      * intros [|i] call' Hi; cbn in Hi; [|done]. by injection Hi as <-.
      * intros [|i] call' Hi Hlt; cbn in Hi, Hlt; [lia|done].
      * right. left. exists call, e. done.
  - destruct Hcase as (row & Hqr & Hsc & Htu & Hfa & ->).
    assert (Hnodup : forall e, after_persist L E c data row = Throw e ->
              is_duplicate_key e = false) by apply after_persist_not_duplicate.
    exists (after_persist L E c data row), w0, [call].
    split.
    { destruct (after_persist L E c data row) as [resp|e]; [done|].
      by rewrite (Hnodup e). }
    split; [done|]. split; [cbn; lia|]. split; [done|]. split; [|split].
    * intros [|i] call' Hi; cbn in Hi; [|done]. by injection Hi as <-.
    * intros [|i] call' Hi Hlt; cbn in Hi, Hlt; [lia|done].
    * right. right. exists call, c, row. done.
Qed.

End Issuance.

Section Generate.
Context (L : Lib) (E : Env).

Lemma generateQRSchema_parse_pure (body : RequestBody) (w : World) :
  (exists data, generateQRSchema_parse L body w = (Ok data, w)
                /\ forall url f b, body = Object (JString url) f b -> targetUrl data = url)
  \/ (exists issues, generateQRSchema_parse L body w = (Throw (ZodError issues), w)).
Proof.
  destruct body as [| |t f b]; cbn; [right; eauto..|].
  destruct (check_targetUrl L t ++ check_color f ++ check_color b).
  - left. eexists. split; [done|]. by intros url f' b' [= -> _ _].
  - right. eauto.
Qed.

(** [POST] always answers.  Either the request is refused before any
    statement is sent, or the loop runs on the validated data and its
    result, returned or thrown, becomes the response. *)
Lemma POST_run (request : RequestBody) (w : World) :
  (exists resp w',
      POST L E request w = (Ok resp, w')
      /\ db w' = db w /\ sql_log w' = sql_log w
      /\ (status resp = 400 \/ status resp = 500))
  \/ (exists data r w1,
        (forall url f b, request = Object (JString url) f b -> targetUrl data = url)
        /\ retry_loop L E MAX_ATTEMPTS (nanoid E (nanoid_draws w) 10) data (after_draw w)
           = (r, w1)
        /\ exists w',
            POST L E request w
            = (Ok (match r with Ok resp => resp | Throw e => error_response e end), w')
            /\ db w' = db w1 /\ sql_log w' = sql_log w1).
Proof.
  unfold POST, try_catch, bind, request_json, ret, throw.
  destruct request as [| |t f b].
  - left. eexists _, _. split; [reflexivity|]. cbn. auto.
  - left. eexists _, _. split; [reflexivity|]. cbn. auto.
  - destruct (generateQRSchema_parse_pure (Object t f b) w)
      as [(data & Hp & Hurl)|(issues & Hp)]; rewrite Hp.
    + right. unfold generateShortCode. fold (after_draw w).
      destruct (retry_loop L E MAX_ATTEMPTS (nanoid E (nanoid_draws w) 10) data
                  (after_draw w)) as [r w1] eqn:Hloop.
      exists data, r, w1. split; [done|]. split; [done|].
      destruct r as [resp|e]; [by eexists|].
      unfold console_error, error_response.
      destruct (bool_decide _); by eexists.
    + left. unfold console_error. cbn. eexists _, _. split; [reflexivity|].
      cbn. auto.
Qed.

Lemma all_hex_length (n : nat) (s : string) : all_hex n s = true -> String.length s = n.
Proof.
  revert s. induction n as [|n IH]; intros [|c s]; cbn; try done.
  intros [_ Hs]%andb_true_iff. by rewrite (IH s Hs).
Qed.

Lemma hex_color_length (s : string) : hex_color s = true -> String.length s = 7%nat.
Proof.
  destruct s as [|c s]; [done|]. cbn. intros [_ Hs]%andb_true_iff.
  by rewrite (all_hex_length 6 s Hs).
Qed.

Lemma valid_color_accepted (dflt : string) (v : JsonValue) :
  hex_color dflt = true -> valid_color v = true ->
  check_color v = [] /\ hex_color (string_or dflt v) = true.
Proof. destruct v as [|s|]; cbn; try done. by intros _ ->. Qed.

(** X5.  Issuance succeeds at the first attempt for every valid target
    URL and valid colors, when the connection holds, the candidate drawn
    and the id drawn are new to the store, and the renderer delivers: the
    answer is 201 and carries the candidate as short code. *)
Lemma POST_issues_when_fresh (url dataUrl : string) (fg bg : JsonValue) (w : World) :
  let c := nanoid E (nanoid_draws w) 10 in
  let fgc := string_or "#000000" fg in
  let bgc := string_or "#FFFFFF" bg in
  zod_isURL L url = true -> url <> "" ->
  valid_color fg = true -> valid_color bg = true ->
  sql_fault E (length (sql_log w)) = None ->
  (String.length c <= 21)%nat ->
  Forall (fun q => short_code q <> c) (qr_codes (db w)) ->
  Forall (fun q => id q <> qr_codes_id_seq (db w)) (qr_codes (db w)) ->
  QRCode_toDataURL L (getBaseURL E +:+ "/r/" +:+ c) fgc bgc = Some dataUrl ->
  exists w',
    POST L E (Object (JString url) fg bg) w
    = (Ok (NextResponse_json
             (JsonGenerated
                (GenerateQRResponse.mk (qr_codes_id_seq (db w)) c
                   (getBaseURL E +:+ "/r/" +:+ c) dataUrl
                   (getBaseURL E +:+ "/analytics/" +:+ Z_text (qr_codes_id_seq (db w)))))
             201), w')
    /\ qr_codes (db w')
       = qr_codes (db w)
           ++ [mkQRCode (qr_codes_id_seq (db w)) c url fgc bgc
                 (now E (length (sql_log w))) 0].
Proof.
  intros c fgc bgc Hurl Hne Hfg Hbg Hfault Hlen Hcode Hid Hrender.
  destruct (valid_color_accepted "#000000" fg eq_refl Hfg) as [Hcf Hhf].
  destruct (valid_color_accepted "#FFFFFF" bg eq_refl Hbg) as [Hcb Hhb].
  fold fgc in Hhf. fold bgc in Hhb.
  unfold POST, try_catch, bind, request_json, ret, generateQRSchema_parse.
  cbn [check_targetUrl string_or]. rewrite Hurl, Hcf, Hcb. cbn [app].
  unfold generateShortCode, ret. cbv beta iota zeta. fold c. fold fgc. fold bgc.
  cbn [retry_loop MAX_ATTEMPTS]. unfold try_catch, attempt, bind, createQRCode, sql.
  cbn [targetUrl fgColor bgColor db sql_log].
  rewrite Hfault. unfold insert_qr_code.
  assert (too_long 21 c = false) as -> by (unfold too_long; apply Nat.ltb_ge; lia).
  assert (too_long 7 fgc = false) as ->
    by (unfold too_long; rewrite (hex_color_length _ Hhf); done).
  assert (too_long 7 bgc = false) as ->
    by (unfold too_long; rewrite (hex_color_length _ Hhb); done).
  rewrite Hhf, Hhb. cbn [orb negb].
  assert ((String.length url =? 0)%nat = false) as -> by by destruct url.
  rewrite !bool_decide_eq_false_2.
  - unfold generateQRCodeDataURL, try_catch, ret. cbn [fst snd id].
    rewrite Hrender. by eexists.
  - intros (q & Hq & Heq)%Exists_exists. rewrite Forall_forall in Hcode.
    by apply (Hcode q Hq).
  - intros (q & Hq & Heq)%Exists_exists. rewrite Forall_forall in Hid.
    by apply (Hid q Hq).
Qed.


End Generate.


(** C3.  An issuance sends at most 5 INSERTs, the [i]-th for the [i]-th
    identifier it draws.  Every INSERT but the last was rejected with a
    uniqueness violation: only such a rejection is followed by another
    attempt, and it always is, with a newly drawn candidate, while
    attempts remain.  If the last INSERT was rejected with a uniqueness
    violation, it was the fifth and the answer is RetryExhausted (500).
    If it was rejected with any other error, nothing more is sent and
    that error is the 500 answer. *)
Theorem POST_retry_policy (L : Lib) (E : Env) (request : RequestBody) (w : World) :
  exists (resp : Response) (w' : World) (t : list SqlCall),
    POST L E request w = (Ok resp, w')
    /\ sql_log w' = sql_log w ++ t
    /\ (length t <= 5)%nat
    /\ (forall i call, t !! i = Some call ->
          exists url fg bg,
            statement call = InsertQRCode (nanoid E (nanoid_draws w + i) 10) url fg bg)
    /\ (forall i call, t !! i = Some call -> (S i < length t)%nat ->
          exists e, rejected call = Some e /\ is_duplicate_key e = true)
    /\ (forall call e, last t = Some call -> rejected call = Some e ->
          is_duplicate_key e = true -> length t = 5%nat /\ resp = RetryExhausted)
    /\ (forall call e, last t = Some call -> rejected call = Some e ->
          is_duplicate_key e = false -> Js.name e <> "ZodError" ->
          resp = NextResponse_json
                   (JsonError "Failed to generate QR code" (Some (Js.message e))) 500).
Proof.
  destruct (POST_run L E request w)
    as [(resp & w' & HP & _ & Hlog & _)|(data & r & w1 & _ & Hloop & w' & HP & _ & Hlog)].
  { exists resp, w', []. rewrite app_nil_r. repeat split; try done. cbn. lia. }
  destruct (retry_loop_run L E MAX_ATTEMPTS (nanoid E (nanoid_draws w) 10) data (after_draw w))
    as (r' & w1' & t & Heq & Hlog1 & Hlen & _ & Hcand & Hmid & Hend).
  rewrite Hloop in Heq. injection Heq as <- <-.
  eexists _, w', t. split; [exact HP|]. split; [by rewrite Hlog, Hlog1|].
  split; [exact Hlen|]. split; [|split; [exact Hmid|]].
  { intros i call Hi. rewrite (Hcand i call Hi). eexists _, _, _. unfold insert_of.
    f_equal. destruct i as [|j]; cbn; [by rewrite Nat.add_0_r|]. f_equal. lia. }
  destruct Hend as [(Hn & Hall & -> & _)|[(cl & e' & Hl & Hr & Hd & -> & _)
                   |(cl & code & row & Hl & Hr & _)]].
  - split.
    + intros call e _ _ _. done.
    + intros call e Hlast Hrej Hdup _. destruct (Hall call Hlast) as (e2 & He2 & Hd2).
      congruence.
  - split.
    + intros call e Hlast Hrej Hdup. congruence.
    + intros call e Hlast Hrej Hdup Hname.
      assert (e = e') as -> by congruence.
      unfold error_response. by rewrite bool_decide_eq_false_2.
  - split; intros call e Hlast Hrej; congruence.
Qed.

(** C10.  When the last INSERT of an issuance was accepted and the
    renderer then fails on the short URL of that code, the answer is 500
    and the QRCode row with the consumed short code is in the store,
    which did not hold it before. *)
Theorem POST_render_failure_keeps_record
    (L : Lib) (E : Env) (request : RequestBody) (w w' : World) (resp : Response)
    (t : list SqlCall) (call : SqlCall) (code url fg bg : string) :
  POST L E request w = (Ok resp, w') ->
  sql_log w' = sql_log w ++ t ->
  last t = Some call ->
  rejected call = None ->
  statement call = InsertQRCode code url fg bg ->
  QRCode_toDataURL L (getBaseURL E +:+ "/r/" +:+ code) fg bg = None ->
  resp = NextResponse_json
           (JsonError "Failed to generate QR code" (Some "Failed to generate QR code")) 500
  /\ Forall (fun q => short_code q <> code) (qr_codes (db w))
  /\ exists row : QRCode,
       qr_codes (db w') = qr_codes (db w) ++ [row]
       /\ short_code row = code /\ target_url row = url.
Proof.
  intros HP Hlog Hlast Hrej Hst Hrender.
  destruct (POST_run L E request w)
    as [(resp0 & w0 & HP0 & _ & Hlog0 & _)|(data & r & w1 & _ & Hloop & w0 & HP0 & Hdb & Hlog0)];
    rewrite HP in HP0; injection HP0 as -> <-.
  { rewrite Hlog0 in Hlog. rewrite <- (app_nil_r (sql_log w)) in Hlog at 1.
    apply app_inv_head in Hlog as <-. done. }
  destruct (retry_loop_run L E MAX_ATTEMPTS (nanoid E (nanoid_draws w) 10) data (after_draw w))
    as (r' & w1' & t' & Heq & Hlog1 & _ & _ & _ & _ & Hend).
  rewrite Hloop in Heq. injection Heq as <- <-.
  assert (t' = t) as ->.
  { apply (app_inv_head (sql_log w)). rewrite <- Hlog, Hlog0. symmetry. exact Hlog1. }
  destruct Hend as [(_ & Hall & _)|[(cl & e' & Hl & Hr & _)
                   |(cl & code' & row & Hl & _ & Hs & Hqr & Hsc & Htu & Hfa & ->)]].
  - destruct (Hall call Hlast) as (e & He & _). congruence.
  - congruence.
  - assert (cl = call) as -> by congruence.
    rewrite Hst in Hs. unfold insert_of in Hs. injection Hs as Hc Hu Hf Hb.
    rewrite Hc, Hf, Hb in Hrender.
    unfold after_persist. rewrite Hrender. split; [done|]. rewrite Hc, Hu, Hdb.
    split; [exact Hfa|]. by exists row.
Qed.


(** ** Numbers as text *)

Section NumberText.

Lemma decimal_digit_facts (c : ascii) :
  is_decimal_digit c = true ->
  Js.is_space c = false /\ Ascii.eqb c "-" = false /\ Ascii.eqb c "+" = false
  /\ Ascii.eqb c "x" = false /\ Ascii.eqb c "X" = false
  /\ is_Some (Js.digit_value 10 c).
Proof.
  destruct c as [[] [] [] [] [] [] [] []]; try discriminate; intros _;
    repeat split; try reflexivity; by eexists.
Qed.

(** On a string of decimal digits [parseInt] reads all of it, in
    radix 10. *)
Lemma parseInt_numeric (s : string) :
  is_numeric s = true -> Js.parseInt s = Js.Num (Js.digits_prefix 10 0 s).
Proof.
  destruct s as [|c s]; [done|]. cbn [is_numeric all_decimal].
  intros [Hc Hs]%andb_true_iff.
  destruct (decimal_digit_facts c Hc) as (Hsp & Hm & Hp & _ & _ & Hd).
  unfold Js.parseInt. cbn [Js.trim_start]. rewrite Hsp, Hm, Hp.
  assert (Hradix : (match String c s with
                    | String c0 (String c1 r) =>
                        if Ascii.eqb c0 "0" && (Ascii.eqb c1 "x" || Ascii.eqb c1 "X")
                        then (16, r) else (10, String c s)
                    | _ => (10, String c s)
                    end) = (10, String c s)).
  { destruct s as [|c1 s]; [done|]. cbn [all_decimal] in Hs.
    apply andb_true_iff in Hs as [Hc1 _].
    destruct (decimal_digit_facts c1 Hc1) as (_ & _ & _ & -> & -> & _).
    by rewrite andb_false_r. }
  rewrite Hradix. cbn [Js.starts_with_digit].
  rewrite bool_decide_eq_true_2 by done.
  f_equal. by destruct (Js.digits_prefix 10 0 (String c s)).
Qed.

Lemma all_decimal_uint (d : Decimal.uint) :
  all_decimal (DecimalString.NilEmpty.string_of_uint d) = true.
Proof. induction d; cbn; done. Qed.

Lemma digits_prefix_uint (d : Decimal.uint) (acc : Z) :
  0 <= acc ->
  Js.digits_prefix 10 acc (DecimalString.NilEmpty.string_of_uint d)
  = Z.of_nat (Nat.of_uint_acc d (Z.to_nat acc)).
Proof.
  revert acc. induction d as [|d IH|d IH|d IH|d IH|d IH|d IH|d IH|d IH|d IH|d IH];
    intros acc Hacc;
    [cbn; lia|
     cbn [DecimalString.NilEmpty.string_of_uint Js.digits_prefix Nat.of_uint_acc];
     match goal with |- context [Js.digit_value 10 ?c] =>
       let v := eval vm_compute in (Js.digit_value 10 c) in
       change (Js.digit_value 10 c) with v
     end;
     cbv beta iota;
     rewrite IH by lia; rewrite Nat.tail_mul_spec;
     do 2 f_equal; lia ..].
Qed.

Lemma to_uint_nonnil (n : nat) : Nat.to_uint n <> Decimal.Nil.
Proof.
  rewrite <- (DecimalNat.Unsigned.of_to n) at 1.
  rewrite DecimalNat.Unsigned.to_of. unfold Decimal.unorm.
  by destruct (Decimal.nzhead _).
Qed.

(** COUNT( * ) survives the trip through text: [parseInt] of the
    decimal text of [n] is [n]. *)
Lemma parseInt_nat_text (n : nat) : Js.parseInt (nat_text n) = Js.Num (Z.of_nat n).
Proof.
  unfold nat_text. rewrite parseInt_numeric.
  - rewrite digits_prefix_uint by done. change (Z.to_nat 0) with 0%nat.
    fold (Nat.of_uint (Nat.to_uint n)). by rewrite DecimalNat.Unsigned.of_to.
  - pose proof (to_uint_nonnil n) as Hn. pose proof (all_decimal_uint (Nat.to_uint n)) as Ha.
    destruct (Nat.to_uint n); try done.
Qed.

End NumberText.

(** ** AnalyticsAggregator *)

Section Analytics.
Context (E : Env).

Lemma length_logged (st : Statement) (r : option Js.error) (d : Db) (w : World) :
  length (sql_log (logged st r d w)) = S (length (sql_log w)).
Proof. cbn. rewrite length_app. cbn. lia. Qed.

Lemma no_fault_next (w : World) (m : nat) (st : Statement) :
  no_fault E w (S m) ->
  sql_fault E (length (sql_log w)) = None /\ no_fault E (logged st None (db w) w) m.
Proof.
  intros H. split.
  - rewrite <- (Nat.add_0_r (length _)). apply H. lia.
  - intros i Hi. rewrite length_logged.
    replace (S (length (sql_log w)) + i)%nat with (length (sql_log w) + S i)%nat by lia.
    apply H. lia.
Qed.

(** The lookup and the five aggregates, when the connection holds. *)
Lemma GET_analytics_found (qrId_param : string) (qrId : Z) (q : QRCode) (w : World) :
  Js.parseInt qrId_param = Js.Num qrId ->
  first_row (filter (λ q, id q = qrId) (qr_codes (db w))) = Some q ->
  no_fault E w 6 ->
  exists w',
    GET_analytics E qrId_param w
    = (Ok (NextResponse_json (JsonAnalytics (summarize qrId (db w))) 200), w')
    /\ db w' = db w.
Proof.
  intros Hparse Hrow H6.
  unfold GET_analytics, try_catch, bind at 1. rewrite Hparse.
  rewrite getQRCodeById_run.
  destruct (no_fault_next w 5 (SelectQRCodeById qrId) H6) as [-> H5]. rewrite Hrow.
  set (w0 := logged (SelectQRCodeById qrId) None (db w) w) in *.
  unfold bind at 1, both at 1.
  unfold getTotalScans, bind at 1. rewrite sql_read.
  destruct (no_fault_next w0 4 (SelectTotalScans qrId) H5) as [-> H4].
  set (w1 := logged (SelectTotalScans qrId) None (db w0) w0) in *.
  cbn [ret]. unfold both at 1.
  unfold getScansByDate, bind at 1. rewrite sql_read.
  destruct (no_fault_next w1 3 (SelectScansByDate qrId) H4) as [-> H3].
  set (w2 := logged (SelectScansByDate qrId) None (db w1) w1) in *.
  cbn [ret]. unfold both at 1.
  unfold getDeviceBreakdown, bind at 1. rewrite sql_read.
  destruct (no_fault_next w2 2 (SelectDeviceBreakdown qrId) H3) as [-> H2].
  set (w3 := logged (SelectDeviceBreakdown qrId) None (db w2) w2) in *.
  cbn [ret]. unfold both at 1.
  unfold getBrowserBreakdown, bind at 1. rewrite sql_read.
  destruct (no_fault_next w3 1 (SelectBrowserBreakdown qrId) H2) as [-> H1].
  set (w4 := logged (SelectBrowserBreakdown qrId) None (db w3) w3) in *.
  cbn [ret].
  unfold getLocationBreakdown, bind at 1. rewrite sql_read.
  destruct (no_fault_next w4 0 (SelectLocationBreakdown qrId) H1) as [-> _].
  cbn [ret]. eexists. split; [reflexivity|]. done.
Qed.



End Analytics.

(** *** The endpoint *)

Section AnalyticsClaims.
Context (E : Env).

Lemma first_row_filter_Exists {A} (P : A -> Prop) `{∀ x, Decision (P x)} (l : list A) :
  Exists P l -> exists x, first_row (filter P l) = Some x.
Proof.
  intros Hex. destruct (first_row (filter P l)) as [x|] eqn:Hrow; [by exists x|].
  apply first_row_filter_None in Hrow. by apply Forall_not_Exists in Hrow.
Qed.


End AnalyticsClaims.

(** C5.  For the id of a stored QRCode (the connection holding), the
    analytics answer is 200 and its [total_scans] is the number of
    ScanEvents whose [qr_code_id] is that id; the same request over the
    same store with every [scan_count] overwritten gives the same total. *)
Theorem total_scans_counts_scan_events
    (E : Env) (qrId_param : string) (qrId : Z) (w : World) (f : QRCode -> Z) :
  Js.parseInt qrId_param = Js.Num qrId ->
  Exists (fun q => id q = qrId) (qr_codes (db w)) ->
  no_fault E w 6 ->
  exists (a : ScanAnalytics) (w' : World),
    GET_analytics E qrId_param w = (Ok (NextResponse_json (JsonAnalytics a) 200), w')
    /\ total_scans a
       = Js.Num (Z.of_nat (length (filter (λ s, qr_code_id s = qrId) (scans (db w)))))
    /\ exists (a2 : ScanAnalytics) (w2 : World),
         GET_analytics E qrId_param (with_scan_counts f w)
         = (Ok (NextResponse_json (JsonAnalytics a2) 200), w2)
         /\ total_scans a2 = total_scans a.
Proof.
  intros Hparse Hex Hfault.
  destruct (first_row_filter_Exists (λ q, id q = qrId) _ Hex) as [q Hq].
  destruct (GET_analytics_found E qrId_param qrId q w Hparse Hq Hfault) as (w' & -> & _).
  eexists _, _. split; [reflexivity|].
  split; [apply parseInt_nat_text|].
  assert (Hex2 : Exists (fun q => id q = qrId) (qr_codes (db (with_scan_counts f w)))).
  { cbn. apply Exists_fmap. by apply (Exists_impl _ _ _ Hex). }
  destruct (first_row_filter_Exists (λ q, id q = qrId) _ Hex2) as [q2 Hq2].
  destruct (GET_analytics_found E qrId_param qrId q2 (with_scan_counts f w) Hparse Hq2 Hfault)
    as (w2 & -> & _).
  eexists _, _. split; [reflexivity|]. done.
Qed.



(** *** The breakdowns *)

Section Aggregates.
Context (qrCodeId : Z) (d : Db).

#[local] Instance by_key_asc_trans : Transitive by_key_asc.
Proof. intros a b c. unfold by_key_asc. lia. Qed.
#[local] Instance by_key_asc_total : Total by_key_asc.
Proof. intros a b. unfold by_key_asc. lia. Qed.
#[local] Instance by_count_desc_trans {K} : Transitive (@by_count_desc K).
Proof. intros a b c. unfold by_count_desc. lia. Qed.
#[local] Instance by_count_desc_total {K} : Total (@by_count_desc K).
Proof. intros a b. unfold by_count_desc. lia. Qed.

Lemma count_to_row {K L} (f : K -> L) (r : K * nat) :
  count (to_row f r) = Js.Num (Z.of_nat r.2).
Proof. apply parseInt_nat_text. Qed.

Lemma group_count_keys `{EqDecision K} (keys : list K) :
  (group_count keys).*1 = remove_dups keys.
Proof.
  unfold group_count. rewrite <- list_fmap_compose.
  induction (remove_dups keys) as [|k l IH]; [done|]. cbn. by rewrite IH.
Qed.

(** Per-day counts: one row per day, ascending by date. *)
Lemma scans_by_date_ascending :
  StronglySorted Z.le (label <$> scans_by_date (summarize qrCodeId d))
  /\ NoDup (label <$> scans_by_date (summarize qrCodeId d)).
Proof.
  cbn [summarize scans_by_date]. rewrite <- !list_fmap_compose. split.
  - apply (StronglySorted_fmap _ by_key_asc); [done|].
    apply StronglySorted_merge_sort; apply _.
  - change (label ∘ to_row (λ k : Z, k)) with (@fst Z nat).
    unfold order_by. rewrite merge_sort_Permutation, group_count_keys.
    apply NoDup_remove_dups.
Qed.

Lemma top_rows {K L} `{EqDecision K} (f : K -> L) (n : nat) (keys : list K) :
  let rows := to_row f <$> limit n (order_by by_count_desc (group_count keys)) in
  (length rows <= n)%nat /\ StronglySorted count_ge rows.
Proof.
  cbn zeta. split.
  - rewrite length_fmap. unfold limit. rewrite length_take. lia.
  - apply (StronglySorted_fmap _ by_count_desc).
    + intros x y Hxy. exists (Z.of_nat x.2), (Z.of_nat y.2).
      rewrite !count_to_row. unfold by_count_desc in Hxy. repeat split; lia.
    + unfold limit, order_by.
      apply (StronglySorted_app_1_l _ _ (drop n (merge_sort by_count_desc (group_count keys)))).
      rewrite take_drop. apply StronglySorted_merge_sort; apply _.
Qed.

(** Browsers: at most 10 rows, descending by count. *)
Lemma browser_breakdown_top10 :
  (length (browser_breakdown (summarize qrCodeId d)) <= 10)%nat
  /\ StronglySorted count_ge (browser_breakdown (summarize qrCodeId d)).
Proof. apply (top_rows COALESCE_unknown 10). Qed.

(** Locations: at most 20 rows, descending by count. *)
Lemma location_breakdown_top20 :
  (length (location_breakdown (summarize qrCodeId d)) <= 20)%nat
  /\ StronglySorted count_ge (location_breakdown (summarize qrCodeId d)).
Proof.
  apply (top_rows (λ k : option string * option string,
                     (COALESCE_unknown k.1, COALESCE_unknown k.2)) 20).
Qed.

(** Device types: the labels are the distinct values of the column,
    coalesced afterwards. *)
Lemma device_breakdown_labels :
  label <$> device_breakdown (summarize qrCodeId d)
  = COALESCE_unknown <$> remove_dups (device_type <$> scans_of qrCodeId d).
Proof.
  cbn [summarize device_breakdown]. rewrite <- list_fmap_compose.
  rewrite <- group_count_keys, <- list_fmap_compose. done.
Qed.

(** The labels are distinct as long as the column does not hold both
    NULL and ['unknown'] for this code. *)
Lemma device_breakdown_labels_NoDup :
  (None ∉ device_type <$> scans_of qrCodeId d)
  \/ (Some "unknown" ∉ device_type <$> scans_of qrCodeId d) ->
  NoDup (label <$> device_breakdown (summarize qrCodeId d)).
Proof.
  intros Hclash. rewrite device_breakdown_labels.
  apply NoDup_fmap_2_strong; [|apply NoDup_remove_dups].
  intros x y Hx Hy Heq. rewrite elem_of_remove_dups in Hx, Hy.
  destruct x as [x|], y as [y|]; cbn in Heq; subst; try done;
    destruct Hclash as [H|H]; by destruct H.
Qed.


End Aggregates.


(** ** The handlers on sample requests *)

Example POST_issues_201 :
  issued.1
  = Ok (NextResponse_json
          (JsonGenerated
             (GenerateQRResponse.mk 8 "code-0" "http://localhost:3000/r/code-0"
                "data:image/png;base64,AAAA" "http://localhost:3000/analytics/8"))
          201)
  /\ sql_log issued.2
     = [mkSqlCall (InsertQRCode "code-0" "https://example.org/menu" "#000000" "#FFEE00") None].
Proof. split; reflexivity. Qed.

Example POST_rejects_bad_color :
  (POST sample_lib quiet_env (Object (JString "https://example.org") (JString "red") JUndefined)
     sample_world).1
  = Ok (NextResponse_json (JsonInvalidInput ["Must be a valid hex color"]) 400).
Proof. reflexivity. Qed.

Example POST_exhausts_after_five :
  let r := POST sample_lib colliding_env sample_request sample_world in
  r.1 = Ok RetryExhausted
  /\ length (sql_log r.2) = 5%nat
  /\ Forall (λ c, exists e, rejected c = Some e /\ Js.code e = Some "23505") (sql_log r.2)
  /\ qr_codes (db r.2) = qr_codes (db sample_world).
Proof.
  cbn zeta. split; [reflexivity|]. split; [reflexivity|]. split; [|reflexivity].
  vm_compute. repeat constructor; by eexists.
Qed.

Example POST_aborts_on_connection_failure :
  let r := POST sample_lib (fault_at 0) sample_request sample_world in
  r.1 = Ok (NextResponse_json
              (JsonError "Failed to generate QR code" (Some "connection terminated")) 500)
  /\ length (sql_log r.2) = 1%nat.
Proof. split; reflexivity. Qed.

Example redirect_tracks_scan :
  let r := GET_redirect sample_lib quiet_env iphone_headers "abc123xyz0" sample_world in
  r.1 = Ok (NextResponse_redirect "https://example.com" 302)
  /\ last (scans (db r.2))
     = Some (mkScan 4 7 1700000001 (Some "Mozilla/5.0 (iPhone) Safari") (Some "203.0.113.0")
               None None (Some "mobile") (Some "Safari")).
Proof. split; reflexivity. Qed.

Example redirect_survives_rejected_scan :
  let r := GET_redirect sample_lib quiet_env proxied_headers "abc123xyz0" sample_world in
  r.1 = Ok (NextResponse_redirect "https://example.com" 302)
  /\ scans (db r.2) = scans (db sample_world)
  /\ console r.2 = ["Failed to track scan: value too long for type character varying"].
Proof. repeat split; reflexivity. Qed.



Lemma GET_redirect_miss_witness :
  exists (r : Response) (w' : World),
    GET_redirect sample_lib quiet_env iphone_headers "unknown-code" sample_world = (Ok r, w')
    /\ r = NextResponse_json (JsonError "QR code not found" None) 404
    /\ scans (db w') = scans (db sample_world).
Proof.
  destruct (GET_redirect_miss_no_scan sample_lib quiet_env iphone_headers "unknown-code"
              sample_world)
    as (r & w' & call & Hrun & Hscans & _ & _ & H404).
  - repeat constructor. discriminate.
  - exists r, w'. split; [exact Hrun|]. split; [by apply H404|exact Hscans].
Defined.

Lemma POST_retry_policy_witness :
  exists (w' : World) (t : list SqlCall),
    POST sample_lib colliding_env sample_request sample_world = (Ok RetryExhausted, w')
    /\ sql_log w' = sql_log sample_world ++ t
    /\ length t = 5%nat.
Proof.
  destruct (POST_retry_policy sample_lib colliding_env sample_request sample_world)
    as (resp & w' & t & Hrun & Hlog & _ & _ & _ & Hdup & _).
  pose proof Hrun as Hrun'. vm_compute in Hrun'. injection Hrun' as <- <-.
  pose proof Hlog as Hlog'. cbn in Hlog'. subst t.
  destruct (Hdup (mkSqlCall (InsertQRCode "abc123xyz0" "https://example.org/menu"
                               "#000000" "#FFEE00")
                    (Some (unique_violation "qr_codes_short_code_key")))
              (unique_violation "qr_codes_short_code_key"))
    as [Hlen Hresp]; [reflexivity..|].
  eexists _, _. split; [exact Hrun|]. split; [exact Hlog|exact Hlen].
Defined.

Lemma POST_render_failure_witness :
  exists (w' : World) (row : QRCode),
    POST broken_renderer_lib quiet_env sample_request sample_world
    = (Ok (NextResponse_json
             (JsonError "Failed to generate QR code" (Some "Failed to generate QR code")) 500),
       w')
    /\ qr_codes (db w') = qr_codes (db sample_world) ++ [row]
    /\ short_code row = "code-0"
    /\ target_url row = "https://example.org/menu".
Proof.
  destruct (POST broken_renderer_lib quiet_env sample_request sample_world) as [r w'] eqn:Hrun.
  pose proof Hrun as Hrun'. vm_compute in Hrun'. injection Hrun' as <- <-.
  destruct (POST_render_failure_keeps_record broken_renderer_lib quiet_env sample_request
              sample_world _ _
              [mkSqlCall (InsertQRCode "code-0" "https://example.org/menu" "#000000" "#FFEE00")
                 None]
              (mkSqlCall (InsertQRCode "code-0" "https://example.org/menu" "#000000" "#FFEE00")
                 None)
              "code-0" "https://example.org/menu" "#000000" "#FFEE00" Hrun)
    as (Hresp & _ & row & Hqr & Hsc & Htu); [reflexivity..|].
  eexists _, row. rewrite <- Hresp. split; [reflexivity|]. done.
Defined.

Lemma total_scans_witness :
  exists (a : ScanAnalytics) (w' : World),
    GET_analytics quiet_env "7" sample_world
    = (Ok (NextResponse_json (JsonAnalytics a) 200), w')
    /\ total_scans a = Js.Num 3.
Proof.
  destruct (total_scans_counts_scan_events quiet_env "7" 7 sample_world (λ _, 42))
    as (a & w' & Hrun & Htotal & _).
  - reflexivity.
  - repeat constructor.
  - intros i _. reflexivity.
  - exists a, w'. split; [exact Hrun|]. rewrite Htotal. reflexivity.
Defined.


(** ** What the handlers do to the store *)

Section Evolution.
Context (R : relation Db) `{!PreOrder R}.

Lemma evolves_ret {A} (a : A) : evolves R (ret a).
Proof. intros w r w' [= <- <-]. reflexivity. Qed.


Lemma evolves_bind {A B} (m : M A) (k : A -> M B) :
  evolves R m -> (forall a, evolves R (k a)) -> evolves R (bind m k).
Proof.
  intros Hm Hk w r w'. unfold bind. destruct (m w) as [[a|e] w1] eqn:Hrun.
  - intros Hk'. etrans; [by eapply Hm|by eapply Hk].
  - intros [= <- <-]. by eapply Hm.
Qed.

Lemma evolves_try_catch {A} (m : M A) (h : Js.error -> M A) :
  evolves R m -> (forall e, evolves R (h e)) -> evolves R (try_catch m h).
Proof.
  intros Hm Hh w r w'. unfold try_catch. destruct (m w) as [[a|e] w1] eqn:Hrun.
  - intros [= <- <-]. by eapply Hm.
  - intros Hh'. etrans; [by eapply Hm|by eapply Hh].
Qed.

Lemma evolves_both {A B} (ma : M A) (mb : M B) :
  evolves R ma -> evolves R mb -> evolves R (both ma mb).
Proof.
  intros Ha Hb w r w'. unfold both.
  destruct (ma w) as [ra w1] eqn:Hra. destruct (mb w1) as [rb w2] eqn:Hrb.
  intros [= _ <-]. etrans; [by eapply Ha|by eapply Hb].
Qed.

Lemma evolves_console_error (label : string) (e : Js.error) :
  evolves R (console_error label e).
Proof. intros w r w' [= <- <-]. reflexivity. Qed.


Lemma evolves_sql {A} (E : Env) (st : Statement) (exec : Z -> Db -> Db * (Js.error + A)) :
  (forall ts d, R d (exec ts d).1) -> evolves R (sql E st exec).
Proof.
  intros Hexec w r w'. unfold sql. destruct (sql_fault E _).
  - intros [= <- <-]. reflexivity.
  - specialize (Hexec (now E (length (sql_log w))) (db w)).
    destruct (exec _ _) as [d' [e|a]]; intros [= <- <-]; exact Hexec.
Qed.

Lemma evolves_sql_read {A} (E : Env) (st : Statement) (f : Db -> A) :
  evolves R (sql E st (fun _ d => (d, inr (f d)))).
Proof. apply evolves_sql. intros ts d. reflexivity. Qed.





Lemma GET_analytics_evolves (E : Env) (qrId_param : string) :
  evolves R (GET_analytics E qrId_param).
Proof.
  unfold GET_analytics. apply evolves_try_catch.
  - destruct (Js.parseInt qrId_param) as [n|]; [|apply evolves_ret].
    apply evolves_bind; [apply evolves_sql_read|]. intros [q|]; [|apply evolves_ret].
    apply evolves_bind.
    + repeat apply evolves_both;
        (apply evolves_bind; [apply evolves_sql_read|intros ?; apply evolves_ret]).
    + intros (a & b & c & d & e). apply evolves_ret.
  - intros e. apply evolves_bind; [apply evolves_console_error|]. intros _. apply evolves_ret.
Qed.

End Evolution.

Section SchemaInvariant.

#[global] Instance keeps_preorder (P : Db -> Prop) : PreOrder (keeps P).
Proof.
  split.
  - intros d Hd. exact Hd.
  - intros a b c Hab Hbc Ha. exact (Hbc (Hab Ha)).
Qed.

#[global] Instance grows_preorder : PreOrder grows.
Proof.
  split.
  - intros d. unfold grows. repeat split; (reflexivity || lia).
  - intros a b c (H1 & H2 & H3 & H4) (H1' & H2' & H3' & H4').
    unfold grows. repeat split; try lia; by etrans.
Qed.





Lemma insert_qr_code_grows (c u f b : string) (ts : Z) (d : Db) :
  grows d (insert_qr_code c u f b ts d).1.
Proof.
  unfold insert_qr_code, grows.
  repeat match goal with
         | |- context [if ?b then _ else _] => destruct b
         end; cbn; repeat split; try reflexivity; try lia; by apply prefix_app_r.
Qed.

Lemma insert_scan_grows (scan : ScanInput) (ts : Z) (d : Db) :
  grows d (insert_scan scan ts d).1.
Proof.
  unfold insert_scan, grows.
  repeat match goal with
         | |- context [if ?b then _ else _] => destruct b
         end; cbn; repeat split; try reflexivity; try lia; by apply prefix_app_r.
Qed.

End SchemaInvariant.


Lemma sample_db_schema_ok : schema_ok (db sample_world).
Proof.
  split; cbn.
  - by apply (bool_decide_unpack _).
  - by apply (bool_decide_unpack _).
  - repeat constructor; discriminate.
  - by apply (bool_decide_unpack _).
  - repeat constructor.
  - repeat constructor.
Qed.


(** X2.  No handler deletes or rewrites a stored row.  The generate
    endpoint leaves the scans as they are and adds at most one QRCode, at
    the end; the redirect leaves the QRCodes as they are and adds at most
    one scan, at the end; the analytics endpoint leaves the tables and
    sequences exactly as they are. *)
Theorem handlers_only_append (L : Lib) (E : Env) (w : World) :
  (forall request,
      let w' := (POST L E request w).2 in
      scans (db w') = scans (db w)
      /\ (qr_codes (db w') = qr_codes (db w)
          \/ exists row, qr_codes (db w') = qr_codes (db w) ++ [row]))
  /\ (forall headers shortCode,
        let w' := (GET_redirect L E headers shortCode w).2 in
        qr_codes (db w') = qr_codes (db w)
        /\ (scans (db w') = scans (db w)
            \/ exists s, scans (db w') = scans (db w) ++ [s]))
  /\ (forall qrId_param, db (GET_analytics E qrId_param w).2 = db w).
Proof.
  split; [|split].
  - intros request w'. subst w'.
    destruct (POST_run L E request w)
      as [(resp & w' & -> & Hdb & _)|(data & r & w1 & _ & Hloop & w' & -> & Hdb & _)];
      cbn [snd]; rewrite Hdb; [auto|].
    destruct (retry_loop_run L E MAX_ATTEMPTS (nanoid E (nanoid_draws w) 10) data (after_draw w))
      as (r' & w1' & t & Heq & _ & _ & Hscans & _ & _ & Hend).
    rewrite Hloop in Heq. injection Heq as <- <-. split; [exact Hscans|].
    destruct Hend as [(_ & _ & _ & Hqr)|[(cl & e' & _ & _ & _ & _ & Hqr)
                     |(cl & code & row & _ & _ & _ & Hqr & _)]]; eauto.
  - intros headers shortCode. cbn zeta.
    destruct (GET_redirect L E headers shortCode w) as [r w'] eqn:Hrun. cbn [snd].
    revert Hrun. unfold GET_redirect, try_catch at 1, bind at 1.
    rewrite getQRCodeByShortCode_run.
    destruct (sql_fault E _) as [e|]; [intros [= _ <-]; by split; [|left]|].
    destruct (first_row _) as [q|]; [|intros [= _ <-]; by split; [|left]].
    fold (scan_of_request L headers q). unfold bind, try_catch.
    destruct (createScan_cases E (scan_of_request L headers q)
                (logged (SelectQRCodeByShortCode shortCode) None (db w) w))
      as [(e & d' & -> & Hs & Hq)|(d' & -> & Hq & Hs)]; intros [= _ <-]; cbn in *.
    + split; [done|by left].
    + split; [done|right; by eexists].
  - intros qrId_param. destruct (GET_analytics E qrId_param w) as [r w'] eqn:Hrun.
    symmetry. exact (GET_analytics_evolves eq E qrId_param w r w' Hrun).
Qed.

(** ** The generate endpoint, further *)

Section GenerateMore.
Context (L : Lib) (E : Env).

Lemma check_color_valid (v : JsonValue) : check_color v = [] <-> valid_color v = true.
Proof. destruct v as [|s|]; cbn; [done| |done]. by destruct (hex_color s). Qed.

Lemma schema_accepts_issues (request : RequestBody) :
  schema_accepts L request = true <-> schema_issues L request = [].
Proof.
  destruct request as [| |t f b]; cbn; [done..|].
  destruct t as [|url|]; cbn; [done| |done].
  destruct (zod_isURL L url); cbn; [|done].
  by rewrite andb_true_iff, app_nil, !check_color_valid.
Qed.

(** A successful attempt: the row it stored and the answer it gave. *)
Lemma attempt_ok (c : string) (data : GenerateQRInput) (w w' : World) (resp : Response) :
  attempt L E c data w = (Ok resp, w') ->
  let row := mkQRCode (qr_codes_id_seq (db w)) c (targetUrl data) (fgColor data)
               (bgColor data) (now E (length (sql_log w))) 0 in
  qr_codes (db w') = qr_codes (db w) ++ [row]
  /\ scans (db w') = scans (db w)
  /\ Forall (fun q => id q <> id row) (qr_codes (db w))
  /\ exists dataUrl,
       resp = NextResponse_json
                (JsonGenerated
                   (GenerateQRResponse.mk (id row) c (getBaseURL E +:+ "/r/" +:+ c) dataUrl
                      (getBaseURL E +:+ "/analytics/" +:+ Z_text (id row))))
                201.
Proof.
  unfold attempt, bind at 1, createQRCode, sql.
  destruct (sql_fault E _) as [e|]; [done|].
  unfold insert_qr_code.
  repeat match goal with
         | |- context [if bool_decide ?P then _ else _] =>
             destruct (decide P);
             [by rewrite bool_decide_eq_true_2|rewrite bool_decide_eq_false_2 by done]
         | |- context [if ?b then _ else _] => destruct b; [done|]
         end.
  unfold bind, generateQRCodeDataURL, try_catch.
  destruct (QRCode_toDataURL L _ _ _) as [u|]; [|done].
  intros [= <- <-]. cbn. split; [done|]. split; [done|]. split; [|by eexists].
  apply Forall_forall. intros q Hq Heq.
  match goal with H : ¬ Exists (λ q, id q = _) _ |- _ => apply H end.
  apply Exists_exists. eauto.
Qed.

(** A loop that returns has returned from one of its attempts, before
    which the two tables were as at the start. *)
Lemma retry_loop_ok (n : nat) (c : string) (data : GenerateQRInput) (w w' : World)
    (resp : Response) :
  retry_loop L E n c data w = (Ok resp, w') ->
  exists c0 w0,
    attempt L E c0 data w0 = (Ok resp, w')
    /\ qr_codes (db w0) = qr_codes (db w) /\ scans (db w0) = scans (db w).
Proof.
  revert c w. induction n as [|n IH]; intros c w; [done|].
  cbn [retry_loop]. unfold try_catch.
  destruct (attempt_cases L E c data w)
    as (r0 & w0 & call & Hrun & _ & _ & _ & Hscans & Hcase).
  rewrite Hrun. destruct r0 as [resp0|e].
  { intros [= <- <-]. by exists c, w. }
  destruct (rejected call) as [e'|].
  - destruct Hcase as [_ Hqr].
    destruct (is_duplicate_key e); [|done].
    unfold bind, generateShortCode. intros Hloop.
    apply IH in Hloop as (c0 & w1 & Hatt & Hq1 & Hs1). exists c0, w1.
    split; [done|]. cbn in Hq1, Hs1. split; congruence.
  - destruct Hcase as (row & _ & _ & _ & _ & Hr).
    rewrite (after_persist_not_duplicate L E c data row e (eq_sym Hr)). done.
Qed.

(** A loop with a round left sends at least one INSERT. *)
Lemma retry_loop_sends (n : nat) (c : string) (data : GenerateQRInput) (w : World) :
  exists call t, sql_log (retry_loop L E (S n) c data w).2 = sql_log w ++ call :: t.
Proof.
  cbn [retry_loop]. unfold try_catch.
  destruct (attempt_cases L E c data w) as (r0 & w0 & call & -> & Hlog & _).
  destruct r0 as [resp|e]; [by exists call, []|].
  destruct (is_duplicate_key e); [|by exists call, []].
  unfold bind, generateShortCode.
  match goal with |- context [retry_loop L E n ?c' data ?w1] =>
    destruct (retry_loop_run L E n c' data w1) as (r & w' & t & -> & Hlog' & _)
  end.
  exists call, t. cbn in *. by rewrite Hlog', Hlog, <- app_assoc.
Qed.

End GenerateMore.

(** X3.  The generate endpoint refuses a request before it touches
    anything exactly when the schema rejects it.  A body that is not
    JSON is answered 500; any other body the schema rejects is answered
    400 with all the issues found; in both cases no identifier is drawn,
    no statement is sent and the store is as before.  A request the
    schema accepts always reaches the store: at least one INSERT is sent. *)
Theorem POST_refuses_invalid_request (L : Lib) (E : Env) (request : RequestBody) (w : World) :
  (schema_accepts L request = false ->
   exists resp w',
     POST L E request w = (Ok resp, w')
     /\ resp = match request with
                | NotJson =>
                    NextResponse_json
                      (JsonError "Failed to generate QR code"
                         (Some "Unexpected token in JSON")) 500
                | _ => NextResponse_json (JsonInvalidInput (schema_issues L request)) 400
                end
     /\ db w' = db w /\ sql_log w' = sql_log w /\ nanoid_draws w' = nanoid_draws w)
  /\ (schema_accepts L request = true ->
      exists call t, sql_log (POST L E request w).2 = sql_log w ++ call :: t).
Proof.
  split.
  - intros Hrej. unfold POST, try_catch, bind, request_json, ret, throw.
    destruct request as [| |t f b].
    + eexists _, _. split; [reflexivity|]. by cbn.
    + eexists _, _. split; [reflexivity|]. by cbn.
    + assert (schema_issues L (Object t f b) <> []) as Hiss.
      { intros Hnil. apply schema_accepts_issues in Hnil. congruence. }
      cbn [generateQRSchema_parse]. cbn [schema_issues] in *.
      destruct (check_targetUrl L t ++ check_color f ++ check_color b) as [|i rest] eqn:Hi;
        [done|].
      eexists _, _. split; [reflexivity|]. by cbn.
  - intros Hacc. destruct request as [| |t f b]; [done..|].
    apply schema_accepts_issues in Hacc. cbn [schema_issues] in Hacc.
    unfold POST, try_catch at 1, bind, request_json, ret.
    cbn [generateQRSchema_parse]. rewrite Hacc. unfold generateShortCode, ret.
    change MAX_ATTEMPTS with 5%nat.
    match goal with |- context [retry_loop L E 5 ?c ?data ?w1] =>
      destruct (retry_loop_sends L E 4 c data w1) as (call & t' & Hlog);
      destruct (retry_loop L E 5 c data w1) as [r w']
    end.
    cbn in Hlog. exists call, t'. destruct r as [resp|e]; [done|].
    unfold console_error. cbn. by destruct (bool_decide _).
Qed.

(** ** Integers as text *)

Section IntegerText.

Lemma numeric_uint (d : Decimal.uint) :
  d <> Decimal.Nil -> is_numeric (DecimalString.NilEmpty.string_of_uint d) = true.
Proof.
  intros Hd. pose proof (all_decimal_uint d) as Ha.
  destruct d; try done.
Qed.

Lemma digits_prefix_pos (d : Decimal.uint) (acc : positive) :
  Js.digits_prefix 10 (Z.pos acc) (DecimalString.NilEmpty.string_of_uint d)
  = Z.pos (Pos.of_uint_acc d acc).
Proof.
  revert acc. induction d as [|d IH|d IH|d IH|d IH|d IH|d IH|d IH|d IH|d IH|d IH];
    intros acc;
    [reflexivity|
     cbn [DecimalString.NilEmpty.string_of_uint Js.digits_prefix Pos.of_uint_acc];
     match goal with |- context [Js.digit_value 10 ?c] =>
       let v := eval vm_compute in (Js.digit_value 10 c) in
       change (Js.digit_value 10 c) with v
     end;
     cbv beta iota; rewrite <- IH; f_equal; lia ..].
Qed.

Lemma digits_prefix_of_uint (d : Decimal.uint) :
  Js.digits_prefix 10 0 (DecimalString.NilEmpty.string_of_uint d) = Z.of_N (Pos.of_uint d).
Proof.
  induction d as [|d IH|d IH|d IH|d IH|d IH|d IH|d IH|d IH|d IH|d IH];
    [reflexivity|exact IH|
     cbn [DecimalString.NilEmpty.string_of_uint Js.digits_prefix Pos.of_uint];
     match goal with |- context [Js.digit_value 10 ?c] =>
       let v := eval vm_compute in (Js.digit_value 10 c) in
       change (Js.digit_value 10 c) with v
     end;
     cbv beta iota; cbn [Z.of_N]; rewrite <- digits_prefix_pos; reflexivity ..].
Qed.

Lemma radix_of_numeric (s : string) :
  is_numeric s = true ->
  match s with
  | String c0 (String c1 r) =>
      if Ascii.eqb c0 "0" && (Ascii.eqb c1 "x" || Ascii.eqb c1 "X") then (16, r) else (10, s)
  | _ => (10, s)
  end = (10, s).
Proof.
  destruct s as [|c [|c1 s]]; [done..|]. cbn [is_numeric all_decimal].
  intros [_ [Hc1 _]%andb_true_iff]%andb_true_iff.
  destruct (decimal_digit_facts c1 Hc1) as (_ & _ & _ & -> & -> & _).
  by rewrite andb_false_r.
Qed.

(** A minus sign before decimal digits. *)
Lemma parseInt_minus (s : string) :
  is_numeric s = true ->
  Js.parseInt (String "-" s) = Js.Num (- Js.digits_prefix 10 0 s).
Proof.
  intros Hs. unfold Js.parseInt. cbn [Js.trim_start].
  change (Js.is_space "-") with false. cbv beta iota.
  rewrite Ascii.eqb_refl. rewrite (radix_of_numeric s Hs).
  destruct s as [|c s]; [done|]. cbn [is_numeric all_decimal] in Hs.
  apply andb_true_iff in Hs as [Hc _].
  destruct (decimal_digit_facts c Hc) as (_ & _ & _ & _ & _ & Hd).
  cbn [Js.starts_with_digit]. rewrite bool_decide_eq_true_2 by done.
  f_equal; lia.
Qed.

Lemma pos_to_uint_nonnil (p : positive) : Pos.to_uint p <> Decimal.Nil.
Proof.
  intros Hnil. pose proof (DecimalPos.Unsigned.of_to p) as H. rewrite Hnil in H. done.
Qed.

(** [parseInt] reads back the decimal text of every integer: the id in
    an analytics URL is the id the endpoint looks up. *)
Lemma parseInt_Z_text (z : Z) : Js.parseInt (Z_text z) = Js.Num z.
Proof.
  destruct z as [|p|p]; [reflexivity| |]; unfold Z_text; cbn [Z.to_int DecimalString.NilEmpty.string_of_int].
  - rewrite parseInt_numeric by apply numeric_uint, pos_to_uint_nonnil.
    by rewrite digits_prefix_of_uint, DecimalPos.Unsigned.of_to.
  - rewrite parseInt_minus by apply numeric_uint, pos_to_uint_nonnil.
    by rewrite digits_prefix_of_uint, DecimalPos.Unsigned.of_to.
Qed.

End IntegerText.

Section Issued.
Context (L : Lib) (E : Env).

(** A 201 comes from an attempt on the validated request. *)
Lemma POST_201_attempt (request : RequestBody) (w w' : World) (resp : Response) :
  POST L E request w = (Ok resp, w') ->
  status resp = 201 ->
  exists url f b c0 w0,
    request = Object (JString url) f b
    /\ attempt L E c0 (mkGenerateQRInput url (string_or "#000000" f) (string_or "#FFFFFF" b)) w0
       = (Ok resp, w')
    /\ qr_codes (db w0) = qr_codes (db w) /\ scans (db w0) = scans (db w).
Proof.
  unfold POST, try_catch, bind, request_json, ret, throw, console_error.
  destruct request as [| |t f b].
  - cbn. intros [= <- _] Hst. by cbn in Hst.
  - cbn. intros [= <- _] Hst. by cbn in Hst.
  - cbn [generateQRSchema_parse].
    destruct (check_targetUrl L t ++ check_color f ++ check_color b) as [|i rest] eqn:Hi.
    + unfold ret, generateShortCode.
      match goal with |- context [retry_loop L E MAX_ATTEMPTS ?c ?data ?w1] =>
        destruct (retry_loop L E MAX_ATTEMPTS c data w1) as [[resp1|e] w1'] eqn:Hloop
      end.
      * intros [= <- <-] _. apply retry_loop_ok in Hloop as (c0 & w0 & Hatt & Hq & Hs).
        destruct t as [|url|]; [done| |done].
        exists url, f, b, c0, w0. done.
      * destruct (bool_decide _); intros [= <- _] Hst; by cbn in Hst.
    + unfold throw. cbn. intros [= <- _] Hst. by cbn in Hst.
Qed.

End Issued.

(** X4.  A 201 of the generate endpoint describes a row it has just
    stored.  The request was an object with a string target URL; the
    store holds one more QRCode, at the end, whose id and short code are
    those of the answer, whose target URL is the one requested, whose
    colors are the requested ones or, where absent, #000000 and #FFFFFF,
    and whose scan count is 0; the id is new to the store, the scans are
    untouched; and the two URLs of the answer are built from the base
    URL, the short code and the id. *)
Theorem POST_201_describes_stored_row
    (L : Lib) (E : Env) (request : RequestBody) (w w' : World) (resp : Response) :
  POST L E request w = (Ok resp, w') ->
  status resp = 201 ->
  exists (url : string) (f b : JsonValue) (gen : GenerateQRResponse.t) (row : QRCode),
    request = Object (JString url) f b
    /\ body resp = JsonGenerated gen
    /\ qr_codes (db w') = qr_codes (db w) ++ [row]
    /\ scans (db w') = scans (db w)
    /\ id row = GenerateQRResponse.id gen
    /\ short_code row = GenerateQRResponse.short_code gen
    /\ target_url row = url
    /\ fg_color row = string_or "#000000" f
    /\ bg_color row = string_or "#FFFFFF" b
    /\ scan_count row = 0
    /\ Forall (fun q => id q <> id row) (qr_codes (db w))
    /\ GenerateQRResponse.short_url gen
       = getBaseURL E +:+ "/r/" +:+ GenerateQRResponse.short_code gen
    /\ GenerateQRResponse.analytics_url gen
       = getBaseURL E +:+ "/analytics/" +:+ Z_text (GenerateQRResponse.id gen).
Proof.
  intros Hrun Hst.
  destruct (POST_201_attempt L E request w w' resp Hrun Hst)
    as (url & f & b & c0 & w0 & -> & Hatt & Hq & Hs).
  apply attempt_ok in Hatt as (Hqr & Hscans & Hfresh & dataUrl & ->).
  eexists url, f, b, _, _. split; [done|]. split; [reflexivity|].
  rewrite <- Hq, <- Hs. repeat split; try done.
Qed.

Lemma POST_201_describes_stored_row_witness :
  exists row,
    qr_codes (db issued.2) = qr_codes (db sample_world) ++ [row]
    /\ short_code row = "code-0"
    /\ fg_color row = "#000000" /\ bg_color row = "#FFEE00".
Proof.
  destruct (POST_201_describes_stored_row sample_lib quiet_env sample_request sample_world
              issued.2
              (NextResponse_json
                 (JsonGenerated
                    (GenerateQRResponse.mk 8 "code-0" "http://localhost:3000/r/code-0"
                       "data:image/png;base64,AAAA" "http://localhost:3000/analytics/8"))
                 201))
    as (url & f & b & gen & row & Hreq & Hbody & Hqr & _ & _ & Hsc & _ & Hfg & Hbg & _);
    [reflexivity..|].
  injection Hreq as <- <- <-. cbn in Hbody. injection Hbody as <-.
  exists row. done.
Defined.

(** X6.  The analytics of a code just issued are empty.  When the
    generate endpoint answers 201 on a store within the schema, the id of
    its answer, written in decimal as in the analytics URL, is accepted by
    the analytics endpoint (the connection holding), which answers 200
    with zero scans and four empty breakdowns. *)
Theorem issue_then_analytics
    (L : Lib) (E E2 : Env) (request : RequestBody) (w w' : World) (resp : Response) :
  POST L E request w = (Ok resp, w') ->
  status resp = 201 ->
  schema_ok (db w) ->
  no_fault E2 w' 6 ->
  exists (gen : GenerateQRResponse.t) (w'' : World),
    body resp = JsonGenerated gen
    /\ GET_analytics E2 (Z_text (GenerateQRResponse.id gen)) w'
       = (Ok (NextResponse_json (JsonAnalytics (mkScanAnalytics (Js.Num 0) [] [] [] [])) 200),
          w'').
Proof.
  intros Hrun Hst Hok Hfault.
  destruct (POST_201_attempt L E request w w' resp Hrun Hst)
    as (url & f & b & c0 & w0 & -> & Hatt & Hq & Hs).
  apply attempt_ok in Hatt as (Hqr & Hscans & Hfresh & dataUrl & ->).
  set (row := mkQRCode (qr_codes_id_seq (db w0)) c0 url (string_or "#000000" f)
                (string_or "#FFFFFF" b) (now E (length (sql_log w0))) 0) in *.
  assert (Hnone : scans_of (id row) (db w') = []).
  { unfold scans_of. rewrite Hscans, Hs. apply elem_of_nil_inv.
    intros s [Hid Hin]%list_elem_of_filter.
    pose proof (scans_qr_code_id_fkey _ Hok) as Hfk. rewrite Forall_forall in Hfk.
    apply Hfk in Hin as (q & Hqin & Hqid)%Exists_exists.
    rewrite Hq in Hfresh. rewrite Forall_forall in Hfresh.
    apply (Hfresh q Hqin). cbn beta in Hid, Hqid. by rewrite Hqid, Hid. }
  assert (Hex : Exists (λ q, id q = id row) (qr_codes (db w'))).
  { rewrite Hqr. apply Exists_app. right. by constructor. }
  destruct (first_row_filter_Exists (λ q, id q = id row) _ Hex) as [q Hrow].
  destruct (GET_analytics_found E2 (Z_text (id row)) (id row) q w' (parseInt_Z_text _) Hrow Hfault)
    as (w'' & Hget & _).
  eexists _, w''. split; [reflexivity|]. cbn [GenerateQRResponse.id].
  subst row. cbn [id] in Hget, Hnone |- *.
  rewrite Hget. unfold summarize. rewrite Hnone. reflexivity.
Qed.

Lemma issue_then_analytics_witness :
  exists w'',
    GET_analytics quiet_env "8" issued.2
    = (Ok (NextResponse_json (JsonAnalytics (mkScanAnalytics (Js.Num 0) [] [] [] [])) 200), w'').
Proof.
  destruct (issue_then_analytics sample_lib quiet_env quiet_env sample_request sample_world
              issued.2
              (NextResponse_json
                 (JsonGenerated
                    (GenerateQRResponse.mk 8 "code-0" "http://localhost:3000/r/code-0"
                       "data:image/png;base64,AAAA" "http://localhost:3000/analytics/8"))
                 201))
    as (gen & w'' & Hbody & Hget).
  - reflexivity.
  - reflexivity.
  - exact sample_db_schema_ok.
  - intros i _. reflexivity.
  - cbn in Hbody. injection Hbody as <-. by exists w''.
Defined.

Lemma POST_issues_when_fresh_witness :
  exists w',
    POST sample_lib quiet_env sample_request sample_world
    = (Ok (NextResponse_json
             (JsonGenerated
                (GenerateQRResponse.mk 8 "code-0" "http://localhost:3000/r/code-0"
                   "data:image/png;base64,AAAA" "http://localhost:3000/analytics/8"))
             201), w').
Proof.
  destruct (POST_issues_when_fresh sample_lib quiet_env "https://example.org/menu"
              "data:image/png;base64,AAAA" JUndefined (JString "#FFEE00") sample_world)
    as (w' & Hrun & _).
  - reflexivity.
  - discriminate.
  - reflexivity.
  - reflexivity.
  - reflexivity.
  - vm_compute. lia.
  - repeat constructor. discriminate.
  - repeat constructor. discriminate.
  - reflexivity.
  - by exists w'.
Defined.

Lemma POST_refuses_invalid_request_witness :
  exists w',
    POST sample_lib quiet_env (Object (JString "no url") (JString "red") JUndefined) sample_world
    = (Ok (NextResponse_json
             (JsonInvalidInput ["Must be a valid URL"; "Must be a valid hex color"]) 400), w')
    /\ db w' = db sample_world /\ sql_log w' = [].
Proof.
  destruct (POST_refuses_invalid_request sample_lib quiet_env
              (Object (JString "no url") (JString "red") JUndefined) sample_world)
    as (Hrej & _).
  destruct Hrej as (resp & w' & Hrun & -> & Hdb & Hlog & _); [reflexivity|].
  exists w'. done.
Defined.

(** ** The redirect, further *)

Section RedirectMore.
Context (L : Lib) (E : Env).

Lemma lookup_hit_world (shortCode : string) (w w1 : World) (qrCode : QRCode) :
  getQRCodeByShortCode E shortCode w = (Ok (Some qrCode), w1) ->
  w1 = logged (SelectQRCodeByShortCode shortCode) None (db w) w
  /\ qrCode ∈ qr_codes (db w) /\ short_code qrCode = shortCode.
Proof.
  rewrite getQRCodeByShortCode_run. destruct (sql_fault E _); [done|].
  intros [= Hrow <-]. split; [done|].
  by apply (first_row_filter_Some (λ q, short_code q = shortCode)) in Hrow.
Qed.

Lemma filter_snoc {A} (P : A -> Prop) `{∀ x, Decision (P x)} (l : list A) (x : A) :
  length (filter P (l ++ [x])) = (length (filter P l) + if decide (P x) then 1 else 0)%nat.
Proof.
  rewrite filter_app, length_app. f_equal.
  destruct (decide (P x)); [by rewrite filter_cons_True|by rewrite filter_cons_False].
Qed.

Lemma DeviceType_str_enum (dev : DeviceType) :
  device_type_enum (Some (DeviceType_str dev)) = true
  /\ too_long_opt 20 (Some (DeviceType_str dev)) = false.
Proof. by destruct dev. Qed.

End RedirectMore.

(** X7.  A redirect counts as exactly one scan of its code.  When the
    lookup returns a stored QRCode, the total the analytics compute for
    that code afterwards is one more than before if the scan write was
    accepted and the same if it was rejected; the total of every other
    code is unchanged either way. *)
Theorem redirect_counts_one_scan
    (L : Lib) (E : Env) (headers : Headers) (shortCode : string)
    (w w1 : World) (qrCode : QRCode) :
  getQRCodeByShortCode E shortCode w = (Ok (Some qrCode), w1) ->
  exists (w' : World) (resp : Response) (call : SqlCall),
    GET_redirect L E headers shortCode w = (Ok resp, w')
    /\ last (sql_log w') = Some call
    /\ statement call = InsertScan (id qrCode)
    /\ forall n : Z,
         total_scans (summarize n (db w'))
         = Js.Num (Z.of_nat (length (scans_of n (db w)))
                   + match rejected call with
                     | None => if bool_decide (n = id qrCode) then 1 else 0
                     | Some _ => 0
                     end).
Proof.
  intros Hlookup. pose proof (lookup_hit_world E _ _ _ _ Hlookup) as (Hw1 & _ & _).
  unfold GET_redirect, try_catch at 1, bind at 1. rewrite Hlookup.
  fold (scan_of_request L headers qrCode). unfold bind, try_catch.
  destruct (createScan_cases E (scan_of_request L headers qrCode) w1)
    as [(e & d' & -> & Hs & _)|(d' & -> & _ & Hs)].
  - eexists _, _, _. split; [reflexivity|]. cbn [sql_log logged]. rewrite last_snoc.
    split; [done|]. split; [done|]. intros n. cbn [summarize total_scans rejected].
    rewrite parseInt_nat_text. unfold scans_of. cbn [db console_error ret]. cbn.
    rewrite Hs, Hw1. cbn. f_equal. lia.
  - eexists _, _, _. split; [reflexivity|]. cbn [sql_log logged]. rewrite last_snoc.
    split; [done|]. split; [done|]. intros n. cbn [summarize total_scans rejected].
    rewrite parseInt_nat_text. unfold scans_of. cbn [db ret]. cbn.
    rewrite Hs, Hw1. cbn [db logged]. rewrite filter_snoc. cbn [qr_code_id in_qr_code_id scan_of_request].
    f_equal. destruct (decide (id qrCode = n)) as [->|Hne].
    + rewrite bool_decide_eq_true_2 by done. lia.
    + rewrite bool_decide_eq_false_2 by done. lia.
Qed.

Lemma redirect_counts_one_scan_witness :
  exists w',
    (GET_redirect sample_lib quiet_env iphone_headers "abc123xyz0" sample_world).2 = w'
    /\ total_scans (summarize 7 (db sample_world)) = Js.Num 3
    /\ total_scans (summarize 7 (db w')) = Js.Num 4
    /\ total_scans (summarize 8 (db w')) = Js.Num 0.
Proof.
  destruct (redirect_counts_one_scan sample_lib quiet_env iphone_headers "abc123xyz0"
              sample_world
              (logged (SelectQRCodeByShortCode "abc123xyz0") None (db sample_world) sample_world)
              sample_qr)
    as (w' & resp & call & Hrun & Hlast & _ & Htotal); [reflexivity|].
  exists w'. rewrite Hrun. split; [reflexivity|]. split; [reflexivity|].
  rewrite !Htotal. vm_compute in Hrun. injection Hrun as _ <-.
  cbn in Hlast. injection Hlast as <-. split; reflexivity.
Defined.


(** X9.  What can cost a redirect its scan.  With a stored QRCode and a
    connection that holds, the scan the handler builds is rejected in two
    cases only: one of its texts exceeds its column (value too long), or
    the id drawn for it is taken (primary key).  The device-type CHECK and
    the foreign key never reject it; otherwise the write is accepted. *)
Theorem redirect_scan_write_rejections
    (L : Lib) (E : Env) (headers : Headers) (qrCode : QRCode) (w : World) :
  qrCode ∈ qr_codes (db w) ->
  sql_fault E (length (sql_log w)) = None ->
  let scan := scan_of_request L headers qrCode in
  let r := (createScan E scan w).1 in
  (too_wide scan = true -> r = Throw value_too_long)
  /\ (too_wide scan = false ->
      Exists (λ s, scan_id s = scans_id_seq (db w)) (scans (db w)) ->
      r = Throw (unique_violation "scans_pkey"))
  /\ (too_wide scan = false ->
      ¬ Exists (λ s, scan_id s = scans_id_seq (db w)) (scans (db w)) ->
      r = Ok ()).
Proof.
  intros Hin Hfault scan r. subst r. unfold createScan, sql. rewrite Hfault.
  unfold insert_scan, too_wide.
  pose proof (DeviceType_str_enum
                (ua_device_type (parseUserAgent (ua_parser L) (headers "user-agent"))))
    as [Henum Hlen].
  change (in_device_type scan)
    with (Some (DeviceType_str
                  (ua_device_type (parseUserAgent (ua_parser L) (headers "user-agent"))))).
  rewrite Henum, Hlen. cbn [negb].
  destruct (too_long_opt 45 (in_ip_address scan)); [by repeat split|].
  destruct (too_long_opt 2 (in_country scan)); [by repeat split|].
  destruct (too_long_opt 100 (in_city scan)); [by repeat split|].
  destruct (too_long_opt 50 (in_browser scan)); [by repeat split|].
  cbn [orb].
  assert (Hfk : Exists (λ q, id q = in_qr_code_id scan) (qr_codes (db w))).
  { apply Exists_exists. by exists qrCode. }
  destruct (decide (Exists (λ s, scan_id s = scans_id_seq (db w)) (scans (db w)))) as [Hk|Hk].
  - rewrite bool_decide_eq_true_2 by done. by repeat split.
  - rewrite bool_decide_eq_false_2 by done.
    rewrite (bool_decide_eq_true_2 _ Hfk). by repeat split.
Qed.

Lemma redirect_scan_write_rejections_witness :
  (createScan quiet_env (scan_of_request sample_lib proxied_headers sample_qr) sample_world).1
  = Throw value_too_long
  /\ (createScan quiet_env (scan_of_request sample_lib iphone_headers sample_qr) sample_world).1
     = Ok ().
Proof.
  split.
  - destruct (redirect_scan_write_rejections sample_lib quiet_env proxied_headers sample_qr
                sample_world) as (Hwide & _); [by left|reflexivity|].
    by apply Hwide.
  - destruct (redirect_scan_write_rejections sample_lib quiet_env iphone_headers sample_qr
                sample_world) as (_ & _ & Hok); [by left|reflexivity|].
    apply Hok; [reflexivity|]. by apply (bool_decide_unpack _).
Defined.

(** X10.  Scans written by the redirect never have a NULL device type,
    so on a store they alone have filled the device breakdown lists
    every label once.  If no stored scan has a NULL device type, the same
    holds after a redirect, and the device labels the analytics compute
    for any code are pairwise distinct. *)
Theorem redirect_keeps_device_labels_distinct
    (L : Lib) (E : Env) (headers : Headers) (shortCode : string) (w : World) :
  devices_known (db w) ->
  let w' := (GET_redirect L E headers shortCode w).2 in
  devices_known (db w')
  /\ forall n, NoDup (label <$> device_breakdown (summarize n (db w'))).
Proof.
  intros Hknown. cbn zeta.
  assert (Hkept : devices_known (db (GET_redirect L E headers shortCode w).2)).
  { destruct (GET_redirect L E headers shortCode w) as [r w'] eqn:Hrun. cbn [snd].
    revert Hrun. unfold GET_redirect, try_catch at 1, bind at 1.
    rewrite getQRCodeByShortCode_run.
    destruct (sql_fault E _) as [e|]; [by intros [= _ <-]|].
    destruct (first_row _) as [q|]; [|by intros [= _ <-]].
    fold (scan_of_request L headers q). unfold bind, try_catch.
    destruct (createScan_cases E (scan_of_request L headers q)
                (logged (SelectQRCodeByShortCode shortCode) None (db w) w))
      as [(e & d' & -> & Hs & _)|(d' & -> & _ & Hs)]; intros [= _ <-];
      unfold devices_known in *; cbn in *; rewrite Hs; [done|].
    apply Forall_app. split; [done|]. by apply Forall_singleton. }
  split; [exact Hkept|]. intros n. apply device_breakdown_labels_NoDup. left.
  intros (s & Hnull & Hin)%list_elem_of_fmap.
  apply list_elem_of_filter in Hin as [_ Hin].
  unfold devices_known in Hkept. rewrite Forall_forall in Hkept.
  by apply (Hkept s Hin).
Qed.

Lemma redirect_keeps_device_labels_distinct_witness :
  NoDup (label <$> device_breakdown
           (summarize 1
              (db (GET_redirect sample_lib quiet_env iphone_headers "abc123xyz" seeded_world).2))).
Proof.
  destruct (redirect_keeps_device_labels_distinct sample_lib quiet_env iphone_headers
              "abc123xyz" seeded_world) as (_ & Hnodup).
  - repeat constructor; discriminate.
  - apply Hnodup.
Defined.

(** ** The analytics endpoint, further *)

(** X11.  The analytics are all or nothing.  For the id of a stored
    QRCode whose lookup is answered, the endpoint sends all five
    aggregate statements after the lookup; it answers 200 with the full
    payload when none of them is rejected, and otherwise 500 with the
    message of a rejected one, never a partial payload. *)
Theorem GET_analytics_all_or_nothing
    (E : Env) (qrId_param : string) (qrId : Z) (w : World) :
  Js.parseInt qrId_param = Js.Num qrId ->
  sql_fault E (length (sql_log w)) = None ->
  Exists (fun q => id q = qrId) (qr_codes (db w)) ->
  exists (resp : Response) (w' : World) (t : list SqlCall),
    GET_analytics E qrId_param w = (Ok resp, w')
    /\ sql_log w' = sql_log w ++ t
    /\ statement <$> t
       = [SelectQRCodeById qrId; SelectTotalScans qrId; SelectScansByDate qrId;
          SelectDeviceBreakdown qrId; SelectBrowserBreakdown qrId;
          SelectLocationBreakdown qrId]
    /\ ((Forall (fun c => rejected c = None) t
         /\ resp = NextResponse_json (JsonAnalytics (summarize qrId (db w))) 200)
        \/ (exists i c e,
              t !! i = Some c /\ rejected c = Some e
              /\ resp = NextResponse_json
                          (JsonError "Failed to fetch analytics" (Some (Js.message e))) 500)).
Proof.
  intros Hparse Hfault Hex.
  destruct (first_row_filter_Exists (λ q, id q = qrId) _ Hex) as [q Hrow].
  unfold GET_analytics, try_catch, bind at 1. rewrite Hparse, getQRCodeById_run, Hfault, Hrow.
  unfold both, bind, getTotalScans, getScansByDate, getDeviceBreakdown,
    getBrowserBreakdown, getLocationBreakdown, bind, sql, ret, console_error.
  repeat (cbv beta iota zeta;
          match goal with
          | |- context [sql_fault E ?k] => destruct (sql_fault E k)
          end);
    cbv beta iota zeta;
    (eexists _, _, _; split; [reflexivity|];
     cbn [sql_log logged db]; rewrite <- !app_assoc; cbn [app];
     split; [reflexivity|]; split; [reflexivity|];
     first
       [ left; split; [by repeat constructor|reflexivity]
       | right;
         first
           [ exists 1%nat; eexists _, _; split; [reflexivity|]; split; reflexivity
           | exists 2%nat; eexists _, _; split; [reflexivity|]; split; reflexivity
           | exists 3%nat; eexists _, _; split; [reflexivity|]; split; reflexivity
           | exists 4%nat; eexists _, _; split; [reflexivity|]; split; reflexivity
           | exists 5%nat; eexists _, _; split; [reflexivity|]; split; reflexivity ] ]).
Qed.

Lemma GET_analytics_all_or_nothing_witness :
  (GET_analytics (fault_at 3) "7" sample_world).1
  = Ok (NextResponse_json
          (JsonError "Failed to fetch analytics" (Some "connection terminated")) 500)
  /\ length (sql_log (GET_analytics (fault_at 3) "7" sample_world).2) = 6%nat.
Proof.
  destruct (GET_analytics_all_or_nothing (fault_at 3) "7" 7 sample_world)
    as (resp & w' & t & Hrun & Hlog & Hst & Hcase).
  - reflexivity.
  - reflexivity.
  - repeat constructor.
  - rewrite Hrun. cbn [fst snd]. rewrite Hlog. cbn [sql_log sample_world world_of app].
    split.
    + vm_compute in Hrun. by injection Hrun as <- _.
    + by rewrite <- (length_fmap statement), Hst.
Defined.

Section AggregateTotals.

Lemma sum_list_with_add {A} (f g : A -> nat) (l : list A) :
  sum_list_with (λ x, f x + g x)%nat l = (sum_list_with f l + sum_list_with g l)%nat.
Proof. induction l as [|x l IH]; cbn; lia. Qed.

Lemma sum_list_with_ext {A} (f g : A -> nat) (l : list A) :
  (forall x, f x = g x) -> sum_list_with f l = sum_list_with g l.
Proof. intros Hfg. induction l as [|x l IH]; cbn; [done|]. by rewrite Hfg, IH. Qed.

Lemma sum_list_with_fmap {A B} (f : A -> B) (g : B -> nat) (l : list A) :
  sum_list_with g (f <$> l) = sum_list_with (g ∘ f) l.
Proof. induction l as [|x l IH]; cbn; [done|]. by rewrite IH. Qed.

Lemma sum_indicator `{EqDecision K} (x : K) (ks : list K) :
  NoDup ks ->
  sum_list_with (λ k, if decide (x = k) then 1 else 0)%nat ks
  = (if decide (x ∈ ks) then 1 else 0)%nat.
Proof.
  induction 1 as [|k ks Hk Hnd IH]; cbn; [done|]. rewrite IH.
  destruct (decide (x = k)) as [->|Hne].
  - rewrite (decide_False (P := k ∈ ks)) by done.
    by rewrite (decide_True (P := k ∈ k :: ks)) by left.
  - destruct (decide (x ∈ ks)) as [Hin|Hin].
    + by rewrite (decide_True (P := x ∈ k :: ks)) by by right.
    + rewrite (decide_False (P := x ∈ k :: ks)); [done|].
      by intros [?|?]%elem_of_cons.
Qed.

(** The counts of a GROUP BY add up to the number of rows grouped. *)
Lemma group_count_sum `{EqDecision K} (keys : list K) :
  sum_list_with snd (group_count keys) = length keys.
Proof.
  unfold group_count. rewrite sum_list_with_fmap.
  assert (Hgen : forall ks, NoDup ks -> (forall x, x ∈ keys -> x ∈ ks) ->
             sum_list_with (λ k, length (filter (λ x, x = k) keys)) ks = length keys).
  { intros ks Hnd. induction keys as [|x keys IH]; intros Hsub.
    - clear. induction ks as [|k ks IHk]; [done|]. cbn in *. lia.
    - rewrite (sum_list_with_ext _
                 (λ k, (if decide (x = k) then 1 else 0)
                       + length (filter (λ y, y = k) keys))%nat).
      + rewrite sum_list_with_add, sum_indicator by done.
        rewrite decide_True by (apply Hsub; by left).
        rewrite IH; [done|]. intros y Hy. apply Hsub. by right.
      + intros k. destruct (decide (x = k)) as [->|Hne].
        * by rewrite filter_cons_True.
        * by rewrite filter_cons_False. }
  apply Hgen; [apply NoDup_remove_dups|]. intros x. by rewrite elem_of_remove_dups.
Qed.

Lemma group_count_elem `{EqDecision K} (keys : list K) (k : K) (c : nat) :
  (k, c) ∈ group_count keys <-> k ∈ keys /\ c = length (filter (λ x, x = k) keys).
Proof.
  unfold group_count. rewrite list_elem_of_fmap. split.
  - intros (k' & [= -> ->] & Hin). by rewrite elem_of_remove_dups in Hin.
  - intros [Hin ->]. exists k. by rewrite elem_of_remove_dups.
Qed.

(** Every group has at least one row. *)
Lemma group_count_positive `{EqDecision K} (keys : list K) :
  Forall (λ r, 1 <= r.2)%nat (group_count keys).
Proof.
  apply Forall_forall. intros [k c] [Hin ->]%group_count_elem. cbn.
  destruct (filter (λ x, x = k) keys) as [|y l] eqn:Hf; [|cbn; lia].
  by apply (filter_nil_not_elem_of _ _ k) in Hf.
Qed.

Lemma rows_total {K L} (f : K -> L) (l : list (K * nat)) :
  counts_total (to_row f <$> l) = Z.of_nat (sum_list_with snd l).
Proof.
  induction l as [|r l IH]; cbn; [done|].
  unfold counts_total in IH. rewrite IH, parseInt_nat_text. cbn [count_value]. lia.
Qed.

Lemma rows_positive {K L} (f : K -> L) (l : list (K * nat)) :
  Forall (λ r, 1 <= r.2)%nat l ->
  Forall (λ r, 1 <= count_value (count r)) (to_row f <$> l).
Proof.
  intros Hl. apply Forall_fmap. eapply Forall_impl; [exact Hl|].
  intros r Hr. cbn beta in Hr. change (1 <= count_value (Js.parseInt (nat_text r.2))).
  rewrite parseInt_nat_text. cbn [count_value]. lia.
Qed.

Lemma strictly_ascending (l : list Z) :
  StronglySorted Z.le l -> NoDup l -> StronglySorted Z.lt l.
Proof.
  induction 1 as [|x l Hs IH Hall]; intros Hnd; [constructor|].
  apply NoDup_cons in Hnd as [Hx Hnd]. constructor; [by apply IH|].
  rewrite Forall_forall in Hall |- *. intros y Hy.
  specialize (Hall y Hy). assert (x <> y) by (intros ->; done). lia.
Qed.

End AggregateTotals.

(** X12.  The per-day counts are a complete time series: strictly
    ascending by day, one row for each day on which the code was scanned
    and none for other days, every count at least 1, and the counts add up
    to [total_scans], the number of scans of the code. *)
Theorem scans_by_date_complete (qrCodeId : Z) (d : Db) :
  let a := summarize qrCodeId d in
  StronglySorted Z.lt (label <$> scans_by_date a)
  /\ (forall day, day ∈ label <$> scans_by_date a
                  <-> exists s, s ∈ scans_of qrCodeId d /\ DATE (scanned_at s) = day)
  /\ Forall (fun r => 1 <= count_value (count r)) (scans_by_date a)
  /\ counts_total (scans_by_date a) = count_value (total_scans a)
  /\ total_scans a = Js.Num (Z.of_nat (length (scans_of qrCodeId d))).
Proof.
  cbn zeta. destruct (scans_by_date_ascending qrCodeId d) as [Hle Hnd].
  split; [by apply strictly_ascending|].
  cbn [summarize scans_by_date total_scans]. unfold order_by.
  split; [|split; [|split]].
  - intros day. rewrite <- list_fmap_compose.
    change (label ∘ to_row (λ k : Z, k)) with (@fst Z nat).
    rewrite merge_sort_Permutation, group_count_keys, elem_of_remove_dups.
    rewrite list_elem_of_fmap.
    split; [intros (s & -> & Hs); by exists s|intros (s & Hs & <-); by exists s].
  - apply rows_positive. rewrite merge_sort_Permutation. apply group_count_positive.
  - rewrite rows_total, merge_sort_Permutation, group_count_sum, length_fmap.
    by rewrite parseInt_nat_text.
  - apply parseInt_nat_text.
Qed.

(** X13.  The device breakdown partitions the scans of the code: its
    labels are the device types stored for the code, NULL read as
    unknown; every count is at least 1; and the counts add up to
    [total_scans]. *)
Theorem device_breakdown_complete (qrCodeId : Z) (d : Db) :
  let a := summarize qrCodeId d in
  (forall l, l ∈ label <$> device_breakdown a
             <-> exists s, s ∈ scans_of qrCodeId d /\ COALESCE_unknown (device_type s) = l)
  /\ Forall (fun r => 1 <= count_value (count r)) (device_breakdown a)
  /\ counts_total (device_breakdown a) = count_value (total_scans a).
Proof.
  cbn zeta. split; [|split].
  - intros l. rewrite device_breakdown_labels, list_elem_of_fmap. split.
    + intros (k & -> & Hk). rewrite elem_of_remove_dups, list_elem_of_fmap in Hk.
      destruct Hk as (s & -> & Hs). eauto.
    + intros (s & Hs & <-). exists (device_type s). split; [done|].
      rewrite elem_of_remove_dups. by apply list_elem_of_fmap_2.
  - cbn [summarize device_breakdown]. apply rows_positive, group_count_positive.
  - cbn [summarize device_breakdown total_scans].
    by rewrite rows_total, group_count_sum, length_fmap, parseInt_nat_text.
Qed.

Section TopRows.
Context {K L : Type} `{EqDecision K} (f : K -> L) (n : nat) (keys : list K).

#[local] Instance top_desc_trans : Transitive (@by_count_desc K).
Proof. intros a b c. unfold by_count_desc. lia. Qed.
#[local] Instance top_desc_total : Total (@by_count_desc K).
Proof. intros a b. unfold by_count_desc. lia. Qed.

Lemma to_row_Num (k : K) (c : nat) : to_row f (k, c) = mkRow (f k) (Js.Num (Z.of_nat c)).
Proof. unfold to_row. cbn [fst snd]. by rewrite parseInt_nat_text. Qed.

(** ORDER BY count DESC LIMIT n over a GROUP BY: a group is listed, or
    no listed group is smaller; the listed counts never exceed the rows
    grouped, and reach them when there are at most [n] groups. *)
Lemma top_rows_complete :
  let rows := to_row f <$> limit n (order_by by_count_desc (group_count keys)) in
  (forall k, k ∈ keys ->
     let c := length (filter (λ x, x = k) keys) in
     mkRow (f k) (Js.Num (Z.of_nat c)) ∈ rows
     \/ Forall (λ r, Z.of_nat c <= count_value (count r)) rows)
  /\ counts_total rows <= Z.of_nat (length keys)
  /\ ((length (remove_dups keys) <= n)%nat -> counts_total rows = Z.of_nat (length keys)).
Proof.
  cbn zeta. unfold limit, order_by.
  set (sorted := merge_sort by_count_desc (group_count keys)).
  assert (Hperm : sorted ≡ₚ group_count keys) by apply merge_sort_Permutation.
  assert (Hsorted : StronglySorted by_count_desc (take n sorted ++ drop n sorted)).
  { rewrite take_drop. apply StronglySorted_merge_sort; apply _. }
  assert (Hsum : (sum_list_with snd (take n sorted) + sum_list_with snd (drop n sorted)
                  = length keys)%nat).
  { rewrite <- sum_list_with_app, take_drop. unfold sorted.
    by rewrite merge_sort_Permutation, group_count_sum. }
  split; [|split].
  - intros k Hk. set (c := length (filter (λ x, x = k) keys)).
    assert ((k, c) ∈ take n sorted ++ drop n sorted) as [Hin|Hin]%elem_of_app.
    { rewrite take_drop, Hperm. by apply group_count_elem. }
    + left. rewrite <- to_row_Num. by apply list_elem_of_fmap_2.
    + right. apply Forall_fmap, Forall_forall. intros x Hx.
      pose proof (StronglySorted_app_1_elem_of _ _ _ _ _ Hsorted Hx Hin) as Hle.
      unfold by_count_desc in Hle. cbn in Hle.
      change (Z.of_nat c <= count_value (count (to_row f x))).
      rewrite count_to_row. cbn [count_value]. lia.
  - rewrite rows_total. lia.
  - intros Hfew. rewrite rows_total, take_ge.
    + unfold sorted. by rewrite merge_sort_Permutation, group_count_sum.
    + rewrite Hperm. unfold group_count. by rewrite length_fmap.
Qed.

End TopRows.

(** X14.  The browser breakdown is a top ten.  It has at most 10 rows,
    in descending order of count; every browser value stored for the
    code (NULL read as unknown) is listed with its number of scans, or
    else no listed count is below that number; the listed counts add up
    to at most [total_scans], and to exactly [total_scans] when the code
    has at most 10 distinct browser values. *)
Theorem browser_breakdown_top (qrCodeId : Z) (d : Db) :
  let a := summarize qrCodeId d in
  let stored := browser <$> scans_of qrCodeId d in
  (length (browser_breakdown a) <= 10)%nat
  /\ StronglySorted count_ge (browser_breakdown a)
  /\ (forall k, k ∈ stored ->
        let c := length (filter (λ x, x = k) stored) in
        mkRow (COALESCE_unknown k) (Js.Num (Z.of_nat c)) ∈ browser_breakdown a
        \/ Forall (fun r => Z.of_nat c <= count_value (count r)) (browser_breakdown a))
  /\ counts_total (browser_breakdown a) <= count_value (total_scans a)
  /\ ((length (remove_dups stored) <= 10)%nat ->
      counts_total (browser_breakdown a) = count_value (total_scans a)).
Proof.
  cbn zeta. destruct (browser_breakdown_top10 qrCodeId d) as [Hlen Hsorted].
  split; [exact Hlen|]. split; [exact Hsorted|].
  cbn [summarize browser_breakdown total_scans].
  rewrite parseInt_nat_text. cbn [count_value].
  rewrite <- (length_fmap browser (scans_of qrCodeId d)).
  apply (top_rows_complete COALESCE_unknown 10 (browser <$> scans_of qrCodeId d)).
Qed.

(** X15.  The location breakdown is a top twenty of the (country, city)
    pairs stored for the code, each NULL read as unknown: at most 20
    rows, in descending order of count; every stored pair is listed with
    its number of scans, or else no listed count is below that number;
    the listed counts add up to at most [total_scans], and to exactly
    [total_scans] when the code has at most 20 distinct pairs. *)
Theorem location_breakdown_top (qrCodeId : Z) (d : Db) :
  let a := summarize qrCodeId d in
  let stored := (λ s, (country s, city s)) <$> scans_of qrCodeId d in
  (length (location_breakdown a) <= 20)%nat
  /\ StronglySorted count_ge (location_breakdown a)
  /\ (forall k, k ∈ stored ->
        let c := length (filter (λ x, x = k) stored) in
        mkRow (COALESCE_unknown k.1, COALESCE_unknown k.2) (Js.Num (Z.of_nat c))
          ∈ location_breakdown a
        \/ Forall (fun r => Z.of_nat c <= count_value (count r)) (location_breakdown a))
  /\ counts_total (location_breakdown a) <= count_value (total_scans a)
  /\ ((length (remove_dups stored) <= 20)%nat ->
      counts_total (location_breakdown a) = count_value (total_scans a)).
Proof.
  cbn zeta. destruct (location_breakdown_top20 qrCodeId d) as [Hlen Hsorted].
  split; [exact Hlen|]. split; [exact Hsorted|].
  cbn [summarize location_breakdown total_scans].
  rewrite parseInt_nat_text. cbn [count_value].
  rewrite <- (length_fmap (λ s, (country s, city s)) (scans_of qrCodeId d)).
  apply (top_rows_complete
           (λ k : option string * option string, (COALESCE_unknown k.1, COALESCE_unknown k.2))
           20 ((λ s, (country s, city s)) <$> scans_of qrCodeId d)).
Qed.

(** ** PrivacyFilter: segments *)

Section Segments.
Context (c : ascii).


(** No segment of [s.split(c)] contains [c]. *)
Lemma split_segments_clean (s : string) :
  Forall (λ p, Js.includes (String c "") p = false) (Js.split c s).
Proof.
  induction s as [|x s IH]; cbn [Js.split].
  - by constructor.
  - destruct (Ascii.eqb_spec x c) as [->|Hne]; [by constructor|].
    destruct (Js.split c s) as [|p ps]; constructor.
    + rewrite includes_char_cons, includes_char_nil, bool_decide_eq_false_2; [done|congruence].
    + constructor.
    + apply Forall_cons in IH as [Hp _].
      rewrite includes_char_cons, Hp, bool_decide_eq_false_2; [done|congruence].
    + by apply Forall_cons in IH as [_ ?].
Qed.

(** A character absent from [s] is absent from every segment. *)
Lemma split_segments_free (x : ascii) (s : string) :
  Js.includes (String x "") s = false ->
  Forall (λ p, Js.includes (String x "") p = false) (Js.split c s).
Proof.
  induction s as [|y s IH]; cbn [Js.split].
  - intros _. by constructor.
  - rewrite includes_char_cons. intros [Hy Hs]%orb_false_iff.
    specialize (IH Hs).
    destruct (Ascii.eqb y c); [by constructor|].
    destruct (Js.split c s) as [|p ps]; constructor.
    + by rewrite includes_char_cons, Hy.
    + constructor.
    + apply Forall_cons in IH as [Hp _]. by rewrite includes_char_cons, Hy, Hp.
    + by apply Forall_cons in IH as [_ ?].
Qed.

Lemma join_cons2 (a b : string) (l : list string) :
  Js.join (String c "") (Js.of_list (a :: b :: l)) = a +:+ String c (Js.join (String c "") (Js.of_list (b :: l))).
Proof. reflexivity. Qed.

(** [split] undoes [join] on segments free of the separator. *)
Lemma split_join (l : list string) :
  l <> [] -> Forall (λ p, Js.includes (String c "") p = false) l ->
  Js.split c (Js.join (String c "") (Js.of_list l)) = l.
Proof.
  induction l as [|a [|b l] IH]; [done| |]; intros _ Hl.
  - apply Forall_cons in Hl as [Ha _]. by apply split_whole.
  - apply Forall_cons in Hl as [Ha Hl].
    rewrite join_cons2, split_app by done. by rewrite IH.
Qed.

Lemma includes_split_length (s : string) :
  Js.includes (String c "") s = true -> (2 <= length (Js.split c s))%nat.
Proof.
  induction s as [|x s IH]; [done|].
  rewrite includes_char_cons. cbn [Js.split].
  pose proof (split_nonempty c s) as Hne.
  destruct (Ascii.eqb_spec x c) as [->|Hx].
  - intros _. destruct (Js.split c s); [done|]. cbn. lia.
  - rewrite bool_decide_eq_false_2 by congruence. intros Hs%IH.
    destruct (Js.split c s); cbn in *; lia.
Qed.

Lemma includes_join (l : list string) :
  (2 <= length l)%nat -> Js.includes (String c "") (Js.join (String c "") (Js.of_list l)) = true.
Proof.
  destruct l as [|a [|b l]]; cbn [length]; [lia|lia|]. intros _.
  rewrite join_cons2, includes_char_app, includes_char_cons.
  rewrite bool_decide_eq_true_2 by done. by rewrite orb_true_r.
Qed.

Lemma includes_join_free (x : ascii) (l : list string) :
  x <> c -> Forall (λ p, Js.includes (String x "") p = false) l ->
  Js.includes (String x "") (Js.join (String c "") (Js.of_list l)) = false.
Proof.
  intros Hx. induction l as [|a [|b l] IH]; intros Hl; [done| |].
  - by apply Forall_cons in Hl as [? _].
  - apply Forall_cons in Hl as [Ha Hl].
    rewrite join_cons2, includes_char_app, includes_char_cons, Ha, IH by done.
    by rewrite bool_decide_eq_false_2.
Qed.

(** Holes print as empty strings. *)
Lemma join_elem_text (arr : Js.array) :
  Js.join (String c "") arr = Js.join (String c "") (Js.of_list (Js.elem_text <$> arr)).
Proof.
  induction arr as [|e [|e' arr] IH]; [done|done|].
  change (Js.elem_text e +:+ (String c "") +:+ Js.join (String c "") (e' :: arr)
          = Js.elem_text e +:+ (String c "")
            +:+ Js.join (String c "") (Js.of_list (Js.elem_text <$> e' :: arr))).
  by rewrite IH.
Qed.

Lemma append_nil_r (s : string) : s +:+ "" = s.
Proof.
  induction s as [|x s IH]; [done|].
  change (String x (s +:+ "") = String x s). by rewrite IH.
Qed.

Lemma join_snoc (l : list string) (x : string) :
  l <> [] ->
  Js.join (String c "") (Js.of_list (l ++ [x])) = Js.join (String c "") (Js.of_list l) +:+ (String c "") +:+ x.
Proof.
  induction l as [|a [|b l] IH]; [done|done|]. intros _.
  change ((a :: b :: l) ++ [x]) with (a :: b :: (l ++ [x])).
  rewrite !join_cons2.
  change (b :: l ++ [x]) with ((b :: l) ++ [x]). rewrite IH by done.
  by rewrite append_assoc.
Qed.

Lemma includes_nonempty (s : string) : Js.includes (String c "") s = true -> s <> "".
Proof. by destruct s. Qed.

End Segments.

Section TruncateSegments.

Lemma array_set_3_segments (l : list string) :
  Js.elem_text <$> Js.array_set 3 "0" (Js.of_list l)
  = <[3%nat := "0"]> (l ++ replicate (4 - length l) "").
Proof.
  destruct l as [|a [|b [|x [|y l]]]]; try reflexivity.
  unfold Js.array_set, Js.of_list. rewrite length_fmap.
  cbn [length Nat.ltb Nat.leb Nat.sub replicate]. rewrite app_nil_r.
  cbn. f_equal. f_equal. f_equal. f_equal.
  rewrite <- list_fmap_compose. apply list_fmap_id.
Qed.

(** The dotted branch, on segments. *)
Lemma truncateIP_dotted (s : string) :
  Js.includes "." s = true ->
  truncateIP (Some s)
  = Some (Js.join "." (Js.of_list
            (<[3%nat := "0"]> (Js.split "." s ++ replicate (4 - length (Js.split "." s)) "")))).
Proof.
  intros Hdot. unfold truncateIP.
  rewrite truthy_nonempty by by apply (includes_nonempty "."). cbn [negb].
  rewrite Hdot. cbn zeta. by rewrite join_elem_text, array_set_3_segments.
Qed.

Lemma dotted_segments_clean (l : list string) :
  Forall (λ p, Js.includes "." p = false) l ->
  Forall (λ p, Js.includes "." p = false) (<[3%nat := "0"]> (l ++ replicate (4 - length l) "")).
Proof.
  intros Hl. apply Forall_insert; [|done].
  apply Forall_app. split; [done|]. by apply Forall_replicate.
Qed.

Lemma dotted_segments_length (l : list string) :
  (4 <= length (<[3%nat := "0"]> (l ++ replicate (4 - length l) "")))%nat.
Proof. rewrite length_insert, length_app, length_replicate. lia. Qed.

End TruncateSegments.

(** X16.  For every input containing a dot, the dot-separated segments
    of the result are those of the input, padded with empty segments to
    four, with the fourth replaced by [0]: every later segment is kept.
    Truncating the result again changes nothing. *)
Theorem truncateIP_dotted_segments (s : string) :
  Js.includes "." s = true ->
  exists out : string,
    truncateIP (Some s) = Some out
    /\ Js.split "." out
       = <[3%nat := "0"]> (Js.split "." s ++ replicate (4 - length (Js.split "." s)) "")
    /\ truncateIP (Some out) = Some out.
Proof.
  intros Hdot. eexists. split; [by apply truncateIP_dotted|].
  set (segs := <[3%nat := "0"]> (Js.split "." s ++ replicate (4 - length (Js.split "." s)) "")).
  assert (Hlen : (4 <= length segs)%nat) by apply dotted_segments_length.
  assert (Hclean : Forall (λ p, Js.includes "." p = false) segs).
  { apply dotted_segments_clean, (split_segments_clean "."). }
  assert (Hsplit : Js.split "." (Js.join "." (Js.of_list segs)) = segs).
  { apply (split_join "."); [|done]. intros E. rewrite E in Hlen. cbn in Hlen. lia. }
  split; [done|].
  rewrite truncateIP_dotted by (apply (includes_join "."); lia).
  rewrite Hsplit. replace (4 - length segs)%nat with 0%nat by lia.
  cbn [replicate]. rewrite app_nil_r. unfold segs. by rewrite list_insert_insert_eq.
Qed.

Lemma truncateIP_dotted_segments_witness :
  exists out : string,
    truncateIP (Some "1.2.3.4, 5.6.7.8") = Some out
    /\ Js.split "." out = ["1"; "2"; "3"; "0"; "6"; "7"; "8"]
    /\ truncateIP (Some out) = Some out.
Proof. apply (truncateIP_dotted_segments "1.2.3.4, 5.6.7.8"). reflexivity. Defined.

Section TruncateGroups.

Lemma join_two_empty (l : list string) :
  l <> [] ->
  Js.join ":" (Js.of_list l) +:+ "::" = Js.join ":" (Js.of_list (l ++ [""; ""])).
Proof.
  intros Hl. change (l ++ [""; ""]) with (l ++ [""] ++ [""]). rewrite app_assoc.
  rewrite (join_snoc ":"), (join_snoc ":") by (done || by destruct l).
  by rewrite !append_nil_r, append_assoc.
Qed.

(** The colon branch, on groups. *)
Lemma truncateIP_colon (s : string) :
  Js.includes "." s = false -> Js.includes ":" s = true ->
  truncateIP (Some s)
  = Some (Js.join ":" (Js.of_list (take 4 (Js.split ":" s) ++ [""; ""]))).
Proof.
  intros Hdot Hcol. unfold truncateIP.
  rewrite truthy_nonempty by by apply (includes_nonempty ":"). cbn [negb].
  rewrite Hdot, Hcol. cbn zeta. unfold Js.slice0, Js.of_list at 1.
  rewrite <- fmap_take. fold (Js.of_list (take 4 (Js.split ":" s))).
  rewrite join_two_empty; [done|].
  pose proof (split_nonempty ":" s). by destruct (Js.split ":" s).
Qed.

Lemma groups_clean (x : ascii) (l : list string) :
  Forall (λ p, Js.includes (String x "") p = false) l ->
  Forall (λ p, Js.includes (String x "") p = false) (take 4 l ++ [""; ""]).
Proof.
  intros Hl. apply Forall_app. split; [by apply Forall_take|].
  by repeat constructor.
Qed.

Lemma take_groups_fixed (q : list string) :
  take 4 (q ++ [""; ""]) = q <-> length q = 4%nat.
Proof.
  split.
  - intros E. apply (f_equal length) in E.
    rewrite length_take, length_app in E. cbn [length] in E. lia.
  - intros Hq. by rewrite take_app_length' by done.
Qed.

End TruncateGroups.

(** X17.  For a non-empty input with a colon and no dot, the
    colon-separated groups of the result are the first four groups of
    the input followed by two empty groups.  Truncating the result again
    gives the same string exactly when the input has at least four
    groups; for a shorter address such as [::1] it gives another one. *)
Theorem truncateIP_colon_groups (s : string) :
  Js.includes "." s = false -> Js.includes ":" s = true ->
  exists out : string,
    truncateIP (Some s) = Some out
    /\ Js.split ":" out = take 4 (Js.split ":" s) ++ [""; ""]
    /\ (truncateIP (Some out) = Some out <-> (4 <= length (Js.split ":" s))%nat).
Proof.
  intros Hdot Hcol. eexists. split; [by apply truncateIP_colon|].
  set (q := take 4 (Js.split ":" s)).
  assert (Hq : forall x, Forall (λ p, Js.includes (String x "") p = false) (Js.split ":" s) ->
                         Forall (λ p, Js.includes (String x "") p = false) (q ++ [""; ""])).
  { intros x. apply groups_clean. }
  assert (Hsplit : forall l : list string,
            Forall (λ p, Js.includes ":" p = false) l ->
            Js.split ":" (Js.join ":" (Js.of_list (l ++ [""; ""]))) = l ++ [""; ""]).
  { intros l Hl. apply (split_join ":"); [by destruct l|].
    apply Forall_app. split; [done|by repeat constructor]. }
  assert (Hqc : Forall (λ p, Js.includes ":" p = false) q).
  { apply Forall_take, (split_segments_clean ":"). }
  split; [by apply Hsplit|].
  rewrite truncateIP_colon.
  - rewrite (Hsplit q Hqc).
    assert (Hlen : length q = 4%nat <-> (4 <= length (Js.split ":" s))%nat).
    { unfold q. rewrite length_take. lia. }
    rewrite <- Hlen, <- take_groups_fixed. split.
    + intros [= E]. apply (f_equal (Js.split ":")) in E.
      rewrite (Hsplit q Hqc), Hsplit in E.
      * by apply app_inv_tail in E.
      * apply Forall_take, Forall_app. split; [done|by repeat constructor].
    + by intros ->.
  - apply (includes_join_free ":"); [done|].
    apply Hq, (split_segments_free ":"), Hdot.
  - apply (includes_join ":"). rewrite length_app. cbn. lia.
Qed.

Lemma truncateIP_colon_groups_witness :
  exists out : string,
    truncateIP (Some "::1") = Some out
    /\ Js.split ":" out = take 4 (Js.split ":" "::1") ++ [""; ""]
    /\ (truncateIP (Some out) = Some out <-> (4 <= length (Js.split ":" "::1"))%nat).
Proof. apply (truncateIP_colon_groups "::1"); reflexivity. Defined.

(** ** The analytics payload as a whole *)

Section Sections.

Lemma group_count_nil `{EqDecision K} (keys : list K) : group_count keys = [] <-> keys = [].
Proof.
  split; [|by intros ->].
  unfold group_count. intros Hnil%fmap_nil_inv.
  destruct keys as [|k keys]; [done|].
  assert (k ∈ remove_dups (k :: keys)) as Hin by (rewrite elem_of_remove_dups; left).
  rewrite Hnil in Hin. by apply elem_of_nil in Hin.
Qed.

Lemma order_by_nil {A} (R : A -> A -> Prop) `{∀ x y, Decision (R x y)} (l : list A) :
  order_by R l = [] <-> l = [].
Proof.
  unfold order_by. split; [|by intros ->].
  intros Hnil. apply Permutation_nil_r. rewrite <- Hnil. by rewrite merge_sort_Permutation.
Qed.

Lemma limit_nil {A} (n : nat) (l : list A) : limit (S n) l = [] <-> l = [].
Proof. by destruct l. Qed.

Lemma fmap_nil_iff {A B} (f : A -> B) (l : list A) : f <$> l = [] <-> l = [].
Proof. by destruct l. Qed.

(** Each of the four breakdowns is empty exactly when the code has no
    scan, and so is the total zero. *)
Lemma summarize_empty (qrCodeId : Z) (d : Db) :
  let a := summarize qrCodeId d in
  (total_scans a = Js.Num 0 <-> scans_of qrCodeId d = [])
  /\ (scans_by_date a = [] <-> scans_of qrCodeId d = [])
  /\ (device_breakdown a = [] <-> scans_of qrCodeId d = [])
  /\ (browser_breakdown a = [] <-> scans_of qrCodeId d = [])
  /\ (location_breakdown a = [] <-> scans_of qrCodeId d = []).
Proof.
  cbn zeta. cbn [summarize total_scans scans_by_date device_breakdown browser_breakdown
                  location_breakdown].
  rewrite parseInt_nat_text.
  rewrite !fmap_nil_iff, !limit_nil, !order_by_nil, !group_count_nil, !fmap_nil_iff.
  split; [|done].
  destruct (scans_of qrCodeId d); cbn; split; (done || intros [=]; lia).
Qed.

(** Every answer of the analytics endpoint. *)
Lemma GET_analytics_answers (E : Env) (qrId_param : string) (w : World) :
  exists resp w',
    GET_analytics E qrId_param w = (Ok resp, w')
    /\ db w' = db w
    /\ (resp = NextResponse_json (JsonError "Invalid QR code ID" None) 400
        \/ resp = NextResponse_json (JsonError "QR code not found" None) 404
        \/ (exists msg,
              resp = NextResponse_json (JsonError "Failed to fetch analytics" (Some msg)) 500)
        \/ (exists qrId,
              Js.parseInt qrId_param = Js.Num qrId
              /\ resp = NextResponse_json (JsonAnalytics (summarize qrId (db w))) 200)).
Proof.
  unfold GET_analytics, try_catch, bind at 1.
  destruct (Js.parseInt qrId_param) as [n|]; [|eexists _, _; split; [reflexivity|]; auto].
  rewrite getQRCodeById_run.
  destruct (sql_fault E _);
    [eexists _, _; split; [reflexivity|]; split; [done|]; right; right; left; by eexists|].
  destruct (first_row _);
    [|eexists _, _; split; [reflexivity|]; split; [done|]; right; by left].
  unfold both, bind, getTotalScans, getScansByDate, getDeviceBreakdown,
    getBrowserBreakdown, getLocationBreakdown, bind, sql, ret, console_error.
  repeat (cbv beta iota zeta;
          match goal with
          | |- context [sql_fault E ?k] => destruct (sql_fault E k)
          end);
    cbv beta iota zeta;
    (eexists _, _; split; [reflexivity|]; split; [done|]; right; right;
     first [ left; by eexists | right; exists n; split; reflexivity ]).
Qed.

End Sections.

(** X18.  The sections of an analytics payload stand or fall together.
    In every 200 answer of the analytics endpoint, a total of zero comes
    with four empty breakdowns, and a total other than zero with four
    non-empty ones. *)
Theorem analytics_sections_together
    (E : Env) (qrId_param : string) (w w' : World) (resp : Response) :
  GET_analytics E qrId_param w = (Ok resp, w') ->
  status resp = 200 ->
  exists a : ScanAnalytics,
    body resp = JsonAnalytics a
    /\ (total_scans a = Js.Num 0 ->
        scans_by_date a = [] /\ device_breakdown a = []
        /\ browser_breakdown a = [] /\ location_breakdown a = [])
    /\ (total_scans a <> Js.Num 0 ->
        scans_by_date a <> [] /\ device_breakdown a <> []
        /\ browser_breakdown a <> [] /\ location_breakdown a <> []).
Proof.
  intros Hrun Hst.
  destruct (GET_analytics_answers E qrId_param w)
    as (r & w0 & Hr & _ & [->|[->|[[msg ->]|(qrId & _ & ->)]]]);
    rewrite Hrun in Hr; injection Hr as -> _; try discriminate Hst.
  eexists. split; [reflexivity|].
  destruct (summarize_empty qrId (db w)) as (Ht & Hd & Hv & Hb & Hl).
  split.
  - intros H0%Ht. by rewrite Hd, Hv, Hb, Hl.
  - intros Hne. rewrite Hd, Hv, Hb, Hl. by rewrite Ht in Hne.
Qed.

Lemma analytics_sections_together_witness :
  exists a : ScanAnalytics,
    JsonAnalytics (summarize 1 (db seeded_world)) = JsonAnalytics a
    /\ (total_scans a = Js.Num 0 ->
        scans_by_date a = [] /\ device_breakdown a = []
        /\ browser_breakdown a = [] /\ location_breakdown a = [])
    /\ (total_scans a <> Js.Num 0 ->
        scans_by_date a <> [] /\ device_breakdown a <> []
        /\ browser_breakdown a <> [] /\ location_breakdown a <> []).
Proof.
  apply (analytics_sections_together quiet_env "1" seeded_world
           (GET_analytics quiet_env "1" seeded_world).2
           (NextResponse_json (JsonAnalytics (summarize 1 (db seeded_world))) 200));
    [vm_compute; reflexivity|reflexivity].
Defined.

(** ** The dashboard over the analytics endpoint *)

Section Dashboard.

Lemma summarize_view (qrCodeId : Z) (d : Db) :
  let a := summarize qrCodeId d in
  let n := length (scans_of qrCodeId d) in
  total_scans a = Js.Num (Z.of_nat n)
  /\ AnalyticsDashboard.nonempty (scans_by_date a) = (0 <? n)%nat
  /\ AnalyticsDashboard.nonempty (device_breakdown a) = (0 <? n)%nat
  /\ AnalyticsDashboard.nonempty (browser_breakdown a) = (0 <? n)%nat
  /\ AnalyticsDashboard.nonempty (location_breakdown a) = (0 <? n)%nat
  /\ AnalyticsDashboard.is_zero (total_scans a) = (n =? 0)%nat.
Proof.
  cbn zeta. destruct (summarize_empty qrCodeId d) as (_ & Hd & Hv & Hb & Hl).
  assert (Hflag : forall {A} (l : list A),
            (l = [] <-> scans_of qrCodeId d = []) ->
            AnalyticsDashboard.nonempty l = (0 <? length (scans_of qrCodeId d))%nat).
  { intros A l Hiff. unfold AnalyticsDashboard.nonempty.
    destruct l as [|x l], (scans_of qrCodeId d) as [|s rows]; try done.
    - by destruct Hiff as [Hiff _]; specialize (Hiff eq_refl).
    - by destruct Hiff as [_ Hiff]; specialize (Hiff eq_refl). }
  split; [apply parseInt_nat_text|].
  repeat (split; [by apply Hflag|]).
  cbn [summarize total_scans]. rewrite parseInt_nat_text.
  by destruct (scans_of qrCodeId d).
Qed.

End Dashboard.

(** X19.  What the dashboard shows once its request to the analytics
    endpoint has been answered.  The store is as before; the component
    has left the loading state and shows either an error box with one of
    the endpoint's three messages, or the dashboard with the number of
    scans of the code and all four charts when that number is not zero,
    and with the [No scans yet] notice and no chart when it is zero. *)
Theorem dashboard_shows_route_answer
    (E : Env) (fetch : string -> M Response) (qrId : string) (w : World) :
  fetch ("/api/analytics/" +:+ qrId) = GET_analytics E qrId ->
  exists (st : AnalyticsDashboard.State) (w' : World),
    AnalyticsDashboard.fetchAnalytics fetch qrId AnalyticsDashboard.initial w = (Ok st, w')
    /\ db w' = db w
    /\ ((exists msg,
           AnalyticsDashboard.render st = Some (AnalyticsDashboard.ErrorBox msg)
           /\ msg ∈ ["Invalid QR code ID"; "QR code not found"; "Failed to fetch analytics"])
        \/ (exists (id : Z) (n : nat),
              Js.parseInt qrId = Js.Num id
              /\ n = length (scans_of id (db w))
              /\ AnalyticsDashboard.render st
                 = Some (AnalyticsDashboard.Dashboard (Js.Num (Z.of_nat n))
                           (0 <? n)%nat (0 <? n)%nat (0 <? n)%nat (0 <? n)%nat
                           (n =? 0)%nat))).
Proof.
  intros Hroute.
  unfold AnalyticsDashboard.fetchAnalytics, bind at 1, try_catch, bind at 1.
  rewrite Hroute.
  destruct (GET_analytics_answers E qrId w)
    as (r & w0 & -> & Hdb & [->|[->|[[msg ->]|(id & Hparse & ->)]]]).
  - eexists _, _. split; [reflexivity|]. split; [done|]. left.
    eexists. split; [reflexivity|]. by left.
  - eexists _, _. split; [reflexivity|]. split; [done|]. left.
    eexists. split; [reflexivity|]. right. by left.
  - eexists _, _. split; [reflexivity|]. split; [done|]. left.
    eexists. split; [reflexivity|]. right. right. by left.
  - eexists _, _. split; [reflexivity|]. split; [done|]. right.
    exists id, (length (scans_of id (db w))). split; [done|]. split; [done|].
    destruct (summarize_view id (db w)) as (Ht & Hd & Hv & Hb & Hl & Hz).
    cbn [AnalyticsDashboard.render AnalyticsDashboard.loading AnalyticsDashboard.error
         AnalyticsDashboard.analytics Js.truthy].
    by rewrite Ht, Hd, Hv, Hb, Hl, <- Ht, Hz.
Qed.

Lemma dashboard_shows_route_answer_witness :
  exists (st : AnalyticsDashboard.State),
    (AnalyticsDashboard.fetchAnalytics (fun _ => GET_analytics quiet_env "1") "1"
       AnalyticsDashboard.initial seeded_world).1 = Ok st
    /\ AnalyticsDashboard.render st
       = Some (AnalyticsDashboard.Dashboard (Js.Num 3) true true true true false).
Proof.
  destruct (dashboard_shows_route_answer quiet_env (fun _ => GET_analytics quiet_env "1")
              "1" seeded_world eq_refl)
    as (st & w' & Hrun & _ & [(msg & Hview & _)|(id & n & Hparse & -> & Hview)]).
  - exfalso. vm_compute in Hrun. injection Hrun as <- _. discriminate Hview.
  - exists st. rewrite Hrun. split; [done|].
    rewrite Hview. injection Hparse as <-. reflexivity.
Defined.

(** ** The form over the generate endpoint *)

Section Form.
Context (L : Lib) (E : Env).

(** Every answer of the generate endpoint. *)
Lemma POST_answers (request : RequestBody) (w : World) :
  exists resp w',
    POST L E request w = (Ok resp, w')
    /\ (status resp = 201
        \/ (exists issues, resp = NextResponse_json (JsonInvalidInput issues) 400)
        \/ (exists msg,
              resp = NextResponse_json (JsonError "Failed to generate QR code" (Some msg)) 500)).
Proof.
  unfold POST, try_catch, bind, request_json, ret, throw, console_error.
  destruct request as [| |t f b].
  - eexists _, _. split; [reflexivity|]. right. right. by eexists.
  - eexists _, _. split; [reflexivity|]. right. left. by eexists.
  - cbn [generateQRSchema_parse].
    destruct (check_targetUrl L t ++ check_color f ++ check_color b) as [|i rest] eqn:Hi.
    + unfold ret, generateShortCode.
      match goal with |- context [retry_loop L E MAX_ATTEMPTS ?c ?data ?w1] =>
        destruct (retry_loop L E MAX_ATTEMPTS c data w1) as [[resp1|e] w1'] eqn:Hloop
      end.
      * eexists _, _. split; [reflexivity|]. left.
        apply retry_loop_ok in Hloop as (c0 & w0 & Hatt & _).
        by apply attempt_ok in Hatt as (_ & _ & _ & dataUrl & ->).
      * destruct (bool_decide _); eexists _, _; (split; [reflexivity|]);
          right; [left|right]; by eexists.
    + unfold throw. eexists _, _. split; [reflexivity|]. right. left. by eexists.
Qed.

(** An object the schema has issues with is answered 400 at once. *)
Lemma POST_rejected_object (t f b : JsonValue) (w : World) :
  schema_issues L (Object t f b) <> [] ->
  exists w',
    POST L E (Object t f b) w
    = (Ok (NextResponse_json (JsonInvalidInput (schema_issues L (Object t f b))) 400), w')
    /\ db w' = db w /\ sql_log w' = sql_log w.
Proof.
  intros Hiss. unfold POST, try_catch, bind, request_json, ret, throw.
  cbn [generateQRSchema_parse]. cbn [schema_issues] in *.
  destruct (check_targetUrl L t ++ check_color f ++ check_color b) as [|i rest] eqn:Hi;
    [done|].
  eexists. split; [reflexivity|]. by cbn.
Qed.

End Form.

(** X20.  What the form shows once its request to the generate endpoint
    has been answered.  The button is enabled again and the three inputs
    are as typed.  Either the form holds the 201 payload and no error,
    and the store has one more QRCode with the id and short code of the
    payload, the URL typed and the two colors chosen; or it holds no
    result and one of two messages, [Invalid input] or [Failed to
    generate QR code].  A URL the validator rejects or a color that is
    not [#RRGGBB] gives [Invalid input] with the store untouched and no
    statement sent. *)
Theorem form_submit_outcomes
    (L : Lib) (E : Env) (fetch : string -> RequestBody -> M Response)
    (st : QRGenerator.State) (w : World) :
  (forall request, fetch "/api/qr/generate" request = POST L E request) ->
  exists (st' : QRGenerator.State) (w' : World),
    QRGenerator.handleGenerate fetch st w = (Ok st', w')
    /\ QRGenerator.loading st' = false
    /\ QRGenerator.targetUrl st' = QRGenerator.targetUrl st
    /\ QRGenerator.fgColor st' = QRGenerator.fgColor st
    /\ QRGenerator.bgColor st' = QRGenerator.bgColor st
    /\ ((exists (gen : GenerateQRResponse.t) (row : QRCode),
           QRGenerator.result st' = Some (JsonGenerated gen)
           /\ QRGenerator.error st' = None
           /\ qr_codes (db w') = qr_codes (db w) ++ [row]
           /\ id row = GenerateQRResponse.id gen
           /\ short_code row = GenerateQRResponse.short_code gen
           /\ target_url row = QRGenerator.targetUrl st
           /\ fg_color row = QRGenerator.fgColor st
           /\ bg_color row = QRGenerator.bgColor st)
        \/ (QRGenerator.result st' = None
            /\ (QRGenerator.error st' = Some "Invalid input"
                \/ QRGenerator.error st' = Some "Failed to generate QR code")))
    /\ (zod_isURL L (QRGenerator.targetUrl st) && hex_color (QRGenerator.fgColor st)
        && hex_color (QRGenerator.bgColor st) = false ->
        QRGenerator.error st' = Some "Invalid input"
        /\ db w' = db w /\ sql_log w' = sql_log w).
Proof.
  intros Hroute.
  unfold QRGenerator.handleGenerate, bind at 1, try_catch, bind at 1.
  rewrite Hroute.
  cbn [QRGenerator.targetUrl QRGenerator.fgColor QRGenerator.bgColor
       QRGenerator.setResult QRGenerator.setError QRGenerator.setLoading].
  set (request := Object (JString (QRGenerator.targetUrl st))
                    (JString (QRGenerator.fgColor st)) (JString (QRGenerator.bgColor st))).
  destruct (schema_accepts L request) eqn:Hacc.
  - destruct (POST_answers L E request w) as (resp & w' & Hrun & Hcase). rewrite Hrun.
    assert (Hvalid : zod_isURL L (QRGenerator.targetUrl st)
                     && hex_color (QRGenerator.fgColor st)
                     && hex_color (QRGenerator.bgColor st) = false -> False).
    { intros Hf. cbn in Hacc. congruence. }
    destruct Hcase as [Hst|[[issues ->]|[msg ->]]].
    + destruct (POST_201_attempt L E request w w' resp Hrun Hst)
        as (url & f & b & c0 & w0 & Hreq & Hatt & Hq & _).
      injection Hreq as <- <- <-.
      apply attempt_ok in Hatt as (Hqr & _ & _ & dataUrl & ->).
      eexists _, _. split; [reflexivity|]. repeat (split; [done|]).
      split; [|by intros ?%Hvalid]. left.
      eexists _, _. split; [reflexivity|]. split; [done|].
      rewrite <- Hq. split; [exact Hqr|]. done.
    + eexists _, _. split; [reflexivity|]. repeat (split; [done|]).
      split; [|by intros ?%Hvalid]. right. split; [done|]. by left.
    + eexists _, _. split; [reflexivity|]. repeat (split; [done|]).
      split; [|by intros ?%Hvalid]. right. split; [done|]. by right.
  - destruct (POST_rejected_object L E (JString (QRGenerator.targetUrl st))
                (JString (QRGenerator.fgColor st)) (JString (QRGenerator.bgColor st)) w)
      as (w' & Hrun & Hdb & Hlog).
    { intros Hnil. apply schema_accepts_issues in Hnil. fold request in Hnil. congruence. }
    fold request in Hrun. rewrite Hrun.
    eexists _, _. split; [reflexivity|]. repeat (split; [done|]).
    split; [right; split; [done|by left]|]. done.
Qed.

Lemma form_submit_outcomes_witness :
  exists (st' : QRGenerator.State),
    (QRGenerator.handleGenerate (fun _ => POST sample_lib quiet_env)
       (QRGenerator.mkState "not a url" "#000000" "#FFFFFF" false None None false false)
       sample_world).1 = Ok st'
    /\ QRGenerator.loading st' = false
    /\ QRGenerator.error st' = Some "Invalid input".
Proof.
  destruct (form_submit_outcomes sample_lib quiet_env (fun _ => POST sample_lib quiet_env)
              (QRGenerator.mkState "not a url" "#000000" "#FFFFFF" false None None false false)
              sample_world (fun _ => eq_refl))
    as (st' & w' & Hrun & Hload & _ & _ & _ & _ & Hbad).
  exists st'. rewrite Hrun. split; [done|]. split; [done|].
  by apply Hbad.
Defined.
